(** * mnsphone-server: the room store and the socket event handlers

    A shallow embedding of [src/models.ts] (the data model and the process-wide
    [rooms] map) and of [src/socket.ts] ([initializeSocketEvents] and its
    helpers), followed by the properties of the room state machine.

    Conventions of the embedding.
    - A JavaScript [number] that the handlers only ever use as a small integer
      ([currentRound], [maxRounds], [currentIndex]) is a [Z]; a length is a
      [nat], compared with [Nat.eqb] and [Nat.ltb] as [===] and [<] do.
    - [rooms : Map<string, GameRoom>] is the list of its values in insertion
      order. The only insertion is [rooms.set(roomId, room)] with
      [room.id = roomId], and [id] is never reassigned, so the key of an entry
      is its [id] field.
    - A handler mutates the room object it found in the map; the embedding
      writes the mutated record back at the same key ([rooms_set]), which keeps
      its position in the iteration order.
    - Every [emit] is recorded, in order, as a pair of its addressee and its
      message; a message that carries the room carries its value at that
      moment.
    - The [catch] branches are not modelled: with payloads of the declared
      shapes no statement of a [try] block throws.
    - "The room of a socket" is read the way the handlers read it: the room
      that [findPlayerRoom(socket.id)] returns, with the player object found
      in it. *)

From Stdlib Require Import String Ascii List ZArith Bool Arith Lia.
Import ListNotations.

Local Open Scope string_scope.
Local Open Scope Z_scope.

(** ** Data model ([models.ts]) *)

Inductive GameState : Type :=
| lobby
| writing
| drawing
| results.

Definition GameState_eqb (a b : GameState) : bool :=
  match a, b with
  | lobby, lobby | writing, writing | drawing, drawing | results, results => true
  | _, _ => false
  end.

Module GamePlayer.
Record t : Type := mk
  { id : string;
    nickname : string;
    profilePic : string;
    isHost : bool;
    isReady : bool }.

Definition with_isHost (b : bool) (p : t) : t :=
  mk (id p) (nickname p) (profilePic p) b (isReady p).

Definition with_isReady (b : bool) (p : t) : t :=
  mk (id p) (nickname p) (profilePic p) (isHost p) b.
End GamePlayer.

Module Sentence.
Record t : Type := mk
  { playerId : string;
    text : string;
    round : Z }.
End Sentence.

Module Drawing.
Record t : Type := mk
  { playerId : string;
    imageData : string;
    round : Z }.
End Drawing.

Module PresentationMode.
Record t : Type := mk
  { active : bool;
    currentIndex : Z }.
End PresentationMode.

Module GameRoom.
Record t : Type := mk
  { id : string;
    code : string;
    players : list GamePlayer.t;
    gameState : GameState;
    currentRound : Z;
    maxRounds : Z;
    createdAt : Z;
    locked : bool;
    sentences : list Sentence.t;
    drawings : list Drawing.t;
    presentationMode : PresentationMode.t }.

Definition with_players (ps : list GamePlayer.t) (r : t) : t :=
  mk (id r) (code r) ps (gameState r) (currentRound r) (maxRounds r)
     (createdAt r) (locked r) (sentences r) (drawings r) (presentationMode r).

Definition with_gameState (g : GameState) (r : t) : t :=
  mk (id r) (code r) (players r) g (currentRound r) (maxRounds r)
     (createdAt r) (locked r) (sentences r) (drawings r) (presentationMode r).

Definition with_currentRound (n : Z) (r : t) : t :=
  mk (id r) (code r) (players r) (gameState r) n (maxRounds r)
     (createdAt r) (locked r) (sentences r) (drawings r) (presentationMode r).

Definition with_maxRounds (n : Z) (r : t) : t :=
  mk (id r) (code r) (players r) (gameState r) (currentRound r) n
     (createdAt r) (locked r) (sentences r) (drawings r) (presentationMode r).

Definition with_locked (b : bool) (r : t) : t :=
  mk (id r) (code r) (players r) (gameState r) (currentRound r) (maxRounds r)
     (createdAt r) b (sentences r) (drawings r) (presentationMode r).

Definition with_sentences (ss : list Sentence.t) (r : t) : t :=
  mk (id r) (code r) (players r) (gameState r) (currentRound r) (maxRounds r)
     (createdAt r) (locked r) ss (drawings r) (presentationMode r).

Definition with_drawings (ds : list Drawing.t) (r : t) : t :=
  mk (id r) (code r) (players r) (gameState r) (currentRound r) (maxRounds r)
     (createdAt r) (locked r) (sentences r) ds (presentationMode r).

Definition with_presentationMode (pm : PresentationMode.t) (r : t) : t :=
  mk (id r) (code r) (players r) (gameState r) (currentRound r) (maxRounds r)
     (createdAt r) (locked r) (sentences r) (drawings r) pm.
End GameRoom.

(** ** The room map *)

(** [rooms.get(k)]. *)
Definition rooms_get (k : string) (rs : list GameRoom.t) : option GameRoom.t :=
  find (fun r => GameRoom.id r =? k)%string rs.

(** [rooms.set(room.id, room)]: an existing key keeps its place, a new one
    goes last. *)
Fixpoint rooms_set (room : GameRoom.t) (rs : list GameRoom.t) : list GameRoom.t :=
  match rs with
  | [] => [room]
  | r :: rest =>
      if (GameRoom.id r =? GameRoom.id room)%string then room :: rest
      else r :: rooms_set room rest
  end.

(** [rooms.delete(k)]. *)
Definition rooms_delete (k : string) (rs : list GameRoom.t) : list GameRoom.t :=
  filter (fun r => negb (GameRoom.id r =? k)%string) rs.

(** ** Helpers of [socket.ts] *)

Record ActiveRoom : Type := mkActiveRoom
  { ar_code : string;
    ar_playerCount : nat;
    ar_locked : bool }.

Definition getActiveRooms (rs : list GameRoom.t) : list ActiveRoom :=
  map (fun room =>
         mkActiveRoom (GameRoom.code room) (length (GameRoom.players room))
                      (GameRoom.locked room))
      (filter (fun room => GameState_eqb (GameRoom.gameState room) lobby) rs).

Definition findRoomByCode (code : string) (rs : list GameRoom.t) : option GameRoom.t :=
  find (fun room => GameRoom.code room =? code)%string rs.

Fixpoint findPlayerRoom (playerId : string) (rs : list GameRoom.t)
  : option (GameRoom.t * GamePlayer.t) :=
  match rs with
  | [] => None
  | room :: rest =>
      match find (fun p => GamePlayer.id p =? playerId)%string (GameRoom.players room) with
      | Some player => Some (room, player)
      | None => findPlayerRoom playerId rest
      end
  end.

Definition characters : string := "ABCDEFGHIJKLMNOPQRSTUVWXYZ".

(** [characters.charAt(i)]: the empty string when [i] is out of range. *)
Definition charAt (s : string) (i : nat) : string :=
  match String.get i s with
  | Some c => String c EmptyString
  | None => EmptyString
  end.

(** One run of the loop of [generateRoomCode]: the four values of
    [Math.floor(Math.random() * characters.length)]. *)
Definition Draw : Type := (nat * nat * nat * nat)%type.

Definition code_of_draw (d : Draw) : string :=
  let '(a, b, c, e) := d in
  charAt characters a ++ charAt characters b ++ charAt characters c ++ charAt characters e.

(** [generateRoomCode], driven by the successive random draws: a draw whose
    code is taken is retried with the next one. [None] says that the given draws
    were all taken, where the source would draw again. *)
Fixpoint generateRoomCode (draws : list Draw) (rs : list GameRoom.t) : option string :=
  match draws with
  | [] => None
  | d :: more =>
      match findRoomByCode (code_of_draw d) rs with
      | Some _ => generateRoomCode more rs
      | None => Some (code_of_draw d)
      end
  end.

(** ** The transport (socket.io), as far as the handlers use it

    A connected socket belongs to a set of broadcast groups ("rooms" of the
    adapter): the group named by its own id from the start, and those it
    [join]ed and did not [leave]. A socket that disconnects has left every
    group by the time its [disconnect] handler runs. *)

Definition Sockets : Type := list (string * list string).

Definition connected (sid : string) (ss : Sockets) : bool :=
  existsb (fun s => fst s =? sid)%string ss.

Definition in_group (g : string) (s : string * list string) : bool :=
  existsb (fun g' => g' =? g)%string (snd s).

(** [socket.join(g)]. *)
Definition socket_join (sid g : string) (ss : Sockets) : Sockets :=
  map (fun s =>
         if (fst s =? sid)%string && negb (in_group g s)
         then (fst s, (snd s ++ [g])%list) else s) ss.

(** [socket.leave(g)]. *)
Definition socket_leave (sid g : string) (ss : Sockets) : Sockets :=
  map (fun s =>
         if (fst s =? sid)%string
         then (fst s, filter (fun g' => negb (g' =? g)%string) (snd s)) else s) ss.

Definition socket_connect (sid : string) (ss : Sockets) : Sockets :=
  (ss ++ [(sid, [sid])])%list.

Definition socket_disconnect (sid : string) (ss : Sockets) : Sockets :=
  filter (fun s => negb (fst s =? sid)%string) ss.

(** The addressee of an [emit]. *)
Inductive Target : Type :=
| socket_emit (sid : string)          (* socket.emit(...)        *)
| io_to (group : string)              (* io.to(group).emit(...)  *)
| socket_to (sid group : string)      (* socket.to(group).emit(...) *)
| io_emit.                            (* io.emit(...)            *)

(** The sockets an [emit] reaches. *)
Definition recipients (ss : Sockets) (t : Target) : list string :=
  match t with
  | socket_emit sid => [sid]
  | io_to g => map fst (filter (in_group g) ss)
  | socket_to sid g =>
      map fst (filter (fun s => in_group g s && negb (fst s =? sid)%string) ss)
  | io_emit => map fst ss
  end.

(** The outbound events, with their payloads. *)
Inductive Message : Type :=
| room_created (room : GameRoom.t)
| room_joined (room : GameRoom.t)
| player_joined (playerId nickname profilePic : string)
| player_left (playerId : string) (updatedRoom : GameRoom.t)
| room_updated (room : GameRoom.t)
| game_started (room : GameRoom.t)
| phase_changed (phase : GameState)
| player_kicked
| room_lock_changed (roomCode : string) (locked : bool)
| presentation_started (pm : PresentationMode.t)
| result_changed (pm : PresentationMode.t)
| presentation_ended
| game_reset
| active_rooms (listing : list ActiveRoom)
| error (message : string).

Definition Emit : Type := (Target * Message)%type.

(** ** The state of the process *)

Record State : Type := mkState
  { rooms : list GameRoom.t;
    sockets : Sockets }.

Definition initial : State := mkState [] [].

(** [emitActiveRooms(socket)] and [emitActiveRoomsToAll(io)]. *)
Definition emitActiveRooms (sid : string) (rs : list GameRoom.t) : Emit :=
  (socket_emit sid, active_rooms (getActiveRooms rs)).

Definition emitActiveRoomsToAll (rs : list GameRoom.t) : Emit :=
  (io_emit, active_rooms (getActiveRooms rs)).

(** [const i = ps.findIndex(p => p.id === k); if (i !== -1) ps.splice(i, 1)]. *)
Fixpoint remove_player (k : string) (ps : list GamePlayer.t) : list GamePlayer.t :=
  match ps with
  | [] => []
  | p :: rest =>
      if (GamePlayer.id p =? k)%string then rest else p :: remove_player k rest
  end.

(** Assignment to a field of the object that [ps.find(p => p.id === k)]
    returned: the first player with that id is the one that changes. *)
Fixpoint update_player (k : string) (f : GamePlayer.t -> GamePlayer.t)
         (ps : list GamePlayer.t) : list GamePlayer.t :=
  match ps with
  | [] => []
  | p :: rest =>
      if (GamePlayer.id p =? k)%string then f p :: rest
      else p :: update_player k f rest
  end.

(** [room.players[0].isHost = true]. *)
Definition assign_host (ps : list GamePlayer.t) : list GamePlayer.t :=
  match ps with
  | [] => []
  | p :: rest => GamePlayer.with_isHost true p :: rest
  end.

Definition default_presentation : PresentationMode.t :=
  PresentationMode.mk false 0.

(** ** The event handlers of [initializeSocketEvents]

    Each handler takes the id of the socket it is registered on ([socket.id])
    and the payload, and returns the new state with the emitted events. *)

Definition reply_error (sid msg : string) (st : State) : State * list Emit :=
  (st, [(socket_emit sid, error msg)]).

(** [io.on('connection', ...)]: the transport registers the socket, the handler
    sends it the listing. *)
Definition on_connection (sid : string) (st : State) : State * list Emit :=
  (mkState (rooms st) (socket_connect sid (sockets st)),
   [emitActiveRooms sid (rooms st)]).

(** [create-room]. [uuid] is the value of [uuidv4()] and [now] the value of
    [new Date()]. *)
Definition on_create_room (sid nickname profilePic : string) (draws : list Draw)
           (uuid : string) (now : Z) (st : State) : option (State * list Emit) :=
  match generateRoomCode draws (rooms st) with
  | None => None
  | Some roomCode =>
      let room :=
        GameRoom.mk uuid roomCode
          [GamePlayer.mk sid nickname profilePic true false]
          lobby 0 3 now false [] [] default_presentation in
      let rs := rooms_set room (rooms st) in
      Some (mkState rs (socket_join sid uuid (sockets st)),
            [(socket_emit sid, room_created room); emitActiveRoomsToAll rs])
  end.

(** [join-room]. *)
Definition on_join_room (sid roomCode nickname profilePic : string) (st : State)
  : State * list Emit :=
  match findRoomByCode roomCode (rooms st) with
  | None => reply_error sid "Room not found" st
  | Some room =>
      if GameRoom.locked room then reply_error sid "Room is locked" st
      else if negb (GameState_eqb (GameRoom.gameState room) lobby)
      then reply_error sid "Game has already started" st
      else
        let room' :=
          GameRoom.with_players
            (GameRoom.players room ++ [GamePlayer.mk sid nickname profilePic false false])%list
            room in
        let rs := rooms_set room' (rooms st) in
        (mkState rs (socket_join sid (GameRoom.id room) (sockets st)),
         [(socket_emit sid, room_joined room');
          (socket_to sid (GameRoom.id room), player_joined sid nickname profilePic);
          emitActiveRoomsToAll rs])
  end.

(** The common body of [leave-room] and [disconnect], after the socket has
    left the broadcast group ([ss] is the transport's state by then). *)
Definition depart (sid : string) (room : GameRoom.t) (player : GamePlayer.t)
           (ss : Sockets) (st : State) : State * list Emit :=
  let room1 := GameRoom.with_players (remove_player sid (GameRoom.players room)) room in
  if (length (GameRoom.players room1) =? 0)%nat then
    let rs := rooms_delete (GameRoom.id room1) (rooms st) in
    (mkState rs ss, [emitActiveRoomsToAll rs])
  else
    let room2 :=
      if GamePlayer.isHost player && (0 <? length (GameRoom.players room1))%nat
      then GameRoom.with_players (assign_host (GameRoom.players room1)) room1
      else room1 in
    let rs := rooms_set room2 (rooms st) in
    (mkState rs ss,
     [(io_to (GameRoom.id room2), player_left sid room2); emitActiveRoomsToAll rs]).

(** [leave-room]. *)
Definition on_leave_room (sid : string) (st : State) : State * list Emit :=
  match findPlayerRoom sid (rooms st) with
  | None => (st, [])
  | Some (room, player) =>
      depart sid room player (socket_leave sid (GameRoom.id room) (sockets st)) st
  end.

(** [disconnect]: the transport has dropped the socket from every group. *)
Definition on_disconnect (sid : string) (st : State) : State * list Emit :=
  let ss := socket_disconnect sid (sockets st) in
  match findPlayerRoom sid (rooms st) with
  | None => (mkState (rooms st) ss, [])
  | Some (room, player) => depart sid room player ss st
  end.

(** [toggle-ready]. *)
Definition on_toggle_ready (sid : string) (st : State) : State * list Emit :=
  match findPlayerRoom sid (rooms st) with
  | None => (st, [])
  | Some (room, player) =>
      let room' :=
        GameRoom.with_players
          (update_player sid
             (fun p => GamePlayer.with_isReady (negb (GamePlayer.isReady p)) p)
             (GameRoom.players room))
          room in
      (mkState (rooms_set room' (rooms st)) (sockets st),
       [(io_to (GameRoom.id room), room_updated room')])
  end.

(** [start-game]. *)
Definition on_start_game (sid : string) (st : State) : State * list Emit :=
  match findPlayerRoom sid (rooms st) with
  | None => (st, [])
  | Some (room, player) =>
      if negb (GamePlayer.isHost player)
      then reply_error sid "Only the host can start the game" st
      else
        let allReady :=
          forallb (fun p => GamePlayer.isReady p
                            || (GamePlayer.id p =? GamePlayer.id player)%string)
                  (GameRoom.players room) in
        if negb allReady then reply_error sid "Not all players are ready" st
        else if (length (GameRoom.players room) <? 2)%nat
        then reply_error sid "Need at least 2 players to start" st
        else
          let room' := GameRoom.with_currentRound 1 (GameRoom.with_gameState writing room) in
          let rs := rooms_set room' (rooms st) in
          (mkState rs (sockets st),
           [(io_to (GameRoom.id room), game_started room'); emitActiveRoomsToAll rs])
  end.

(** [submit-sentence]. *)
Definition on_submit_sentence (sid text : string) (st : State) : State * list Emit :=
  match findPlayerRoom sid (rooms st) with
  | None => (st, [])
  | Some (room, player) =>
      if negb (GameState_eqb (GameRoom.gameState room) writing)
      then reply_error sid "Cannot submit sentence in current game state" st
      else
        let room1 :=
          GameRoom.with_sentences
            (GameRoom.sentences room ++ [Sentence.mk sid text (GameRoom.currentRound room)])%list
            room in
        let submittedCount :=
          length (filter (fun s => Sentence.round s =? GameRoom.currentRound room1)
                         (GameRoom.sentences room1)) in
        if (submittedCount =? length (GameRoom.players room1))%nat then
          let room2 := GameRoom.with_gameState drawing room1 in
          (mkState (rooms_set room2 (rooms st)) (sockets st),
           [(io_to (GameRoom.id room), phase_changed drawing);
            (io_to (GameRoom.id room), room_updated room2)])
        else
          (mkState (rooms_set room1 (rooms st)) (sockets st),
           [(io_to (GameRoom.id room), room_updated room1)])
  end.

(** [submit-drawing]. *)
Definition on_submit_drawing (sid imageData : string) (st : State) : State * list Emit :=
  match findPlayerRoom sid (rooms st) with
  | None => (st, [])
  | Some (room, player) =>
      if negb (GameState_eqb (GameRoom.gameState room) drawing)
      then reply_error sid "Cannot submit drawing in current game state" st
      else
        let room1 :=
          GameRoom.with_drawings
            (GameRoom.drawings room ++ [Drawing.mk sid imageData (GameRoom.currentRound room)])%list
            room in
        let submittedCount :=
          length (filter (fun d => Drawing.round d =? GameRoom.currentRound room1)
                         (GameRoom.drawings room1)) in
        if (submittedCount =? length (GameRoom.players room1))%nat then
          if GameRoom.currentRound room1 >=? GameRoom.maxRounds room1 then
            let room2 := GameRoom.with_gameState results room1 in
            (mkState (rooms_set room2 (rooms st)) (sockets st),
             [(io_to (GameRoom.id room), phase_changed results);
              (io_to (GameRoom.id room), room_updated room2)])
          else
            let room2 :=
              GameRoom.with_gameState writing
                (GameRoom.with_currentRound (GameRoom.currentRound room1 + 1) room1) in
            (mkState (rooms_set room2 (rooms st)) (sockets st),
             [(io_to (GameRoom.id room), phase_changed writing);
              (io_to (GameRoom.id room), room_updated room2)])
        else
          (mkState (rooms_set room1 (rooms st)) (sockets st),
           [(io_to (GameRoom.id room), room_updated room1)])
  end.

(** [update-room-settings]. The payload is [settings.maxRounds]: absent, or a
    number, which [if (settings.maxRounds)] takes when it is not [0]. *)
Definition on_update_room_settings (sid : string) (maxRounds : option Z) (st : State)
  : State * list Emit :=
  match findPlayerRoom sid (rooms st) with
  | None => (st, [])
  | Some (room, player) =>
      if negb (GamePlayer.isHost player)
      then reply_error sid "Only the host can update room settings" st
      else
        let room' :=
          match maxRounds with
          | Some n => if n =? 0 then room else GameRoom.with_maxRounds n room
          | None => room
          end in
        (mkState (rooms_set room' (rooms st)) (sockets st),
         [(io_to (GameRoom.id room), room_updated room')])
  end.

(** [kick-player]. *)
Definition on_kick_player (sid playerId : string) (st : State) : State * list Emit :=
  match findPlayerRoom sid (rooms st) with
  | None => (st, [])
  | Some (room, player) =>
      if negb (GamePlayer.isHost player)
      then reply_error sid "Only the host can kick players" st
      else
        match find (fun p => GamePlayer.id p =? playerId)%string (GameRoom.players room) with
        | None => reply_error sid "Player not found" st
        | Some playerToKick =>
            if (playerId =? sid)%string then reply_error sid "Cannot kick yourself" st
            else
              let room' :=
                GameRoom.with_players (remove_player playerId (GameRoom.players room)) room in
              let rs := rooms_set room' (rooms st) in
              let ss :=
                if connected playerId (sockets st)
                then socket_leave playerId (GameRoom.id room) (sockets st)
                else sockets st in
              (mkState rs ss,
               [(io_to playerId, player_kicked);
                (io_to (GameRoom.id room), room_updated room');
                emitActiveRoomsToAll rs])
        end
  end.

(** [toggle-room-lock]. *)
Definition on_toggle_room_lock (sid : string) (st : State) : State * list Emit :=
  match findPlayerRoom sid (rooms st) with
  | None => (st, [])
  | Some (room, player) =>
      if negb (GamePlayer.isHost player)
      then reply_error sid "Only the host can lock/unlock the room" st
      else
        let room' := GameRoom.with_locked (negb (GameRoom.locked room)) room in
        let rs := rooms_set room' (rooms st) in
        (mkState rs (sockets st),
         [(io_to (GameRoom.id room),
           room_lock_changed (GameRoom.code room') (GameRoom.locked room'));
          (io_to (GameRoom.id room), room_updated room');
          emitActiveRoomsToAll rs])
  end.

(** [start-presentation]. *)
Definition on_start_presentation (sid : string) (st : State) : State * list Emit :=
  match findPlayerRoom sid (rooms st) with
  | None => (st, [])
  | Some (room, player) =>
      if negb (GamePlayer.isHost player)
      then reply_error sid "Only the host can start presentation mode" st
      else if negb (GameState_eqb (GameRoom.gameState room) results)
      then reply_error sid "Presentation mode only available in results phase" st
      else
        let room' := GameRoom.with_presentationMode (PresentationMode.mk true 0) room in
        (mkState (rooms_set room' (rooms st)) (sockets st),
         [(io_to (GameRoom.id room), presentation_started (GameRoom.presentationMode room'))])
  end.

(** [show-result]. *)
Definition on_show_result (sid : string) (index : Z) (st : State) : State * list Emit :=
  match findPlayerRoom sid (rooms st) with
  | None => (st, [])
  | Some (room, player) =>
      if negb (GamePlayer.isHost player)
      then reply_error sid "Only the host can control the presentation" st
      else if negb (PresentationMode.active (GameRoom.presentationMode room))
      then reply_error sid "Presentation mode not active" st
      else
        let room' :=
          GameRoom.with_presentationMode
            (PresentationMode.mk (PresentationMode.active (GameRoom.presentationMode room)) index)
            room in
        (mkState (rooms_set room' (rooms st)) (sockets st),
         [(io_to (GameRoom.id room), result_changed (GameRoom.presentationMode room'))])
  end.

(** [end-presentation]. *)
Definition on_end_presentation (sid : string) (st : State) : State * list Emit :=
  match findPlayerRoom sid (rooms st) with
  | None => (st, [])
  | Some (room, player) =>
      if negb (GamePlayer.isHost player)
      then reply_error sid "Only the host can end presentation mode" st
      else if negb (PresentationMode.active (GameRoom.presentationMode room))
      then reply_error sid "Presentation mode not active" st
      else
        let room' := GameRoom.with_presentationMode default_presentation room in
        (mkState (rooms_set room' (rooms st)) (sockets st),
         [(io_to (GameRoom.id room), presentation_ended)])
  end.

(** [reset-game]. *)
Definition on_reset_game (sid : string) (st : State) : State * list Emit :=
  match findPlayerRoom sid (rooms st) with
  | None => (st, [])
  | Some (room, player) =>
      if negb (GamePlayer.isHost player)
      then reply_error sid "Only the host can reset the game" st
      else
        let room' :=
          GameRoom.with_players
            (map (GamePlayer.with_isReady false) (GameRoom.players room))
            (GameRoom.with_presentationMode default_presentation
               (GameRoom.with_drawings []
                  (GameRoom.with_sentences []
                     (GameRoom.with_currentRound 0
                        (GameRoom.with_gameState lobby room))))) in
        let rs := rooms_set room' (rooms st) in
        (mkState rs (sockets st),
         [(io_to (GameRoom.id room), game_reset);
          (io_to (GameRoom.id room), room_updated room');
          emitActiveRoomsToAll rs])
  end.

(** [get-active-rooms]. *)
Definition on_get_active_rooms (sid : string) (st : State) : State * list Emit :=
  (st, [emitActiveRooms sid (rooms st)]).

(** ** Events and the dispatcher *)

Inductive Event : Type :=
| connection
| create_room (nickname profilePic : string) (draws : list Draw) (uuid : string) (now : Z)
| join_room (roomCode nickname profilePic : string)
| leave_room
| toggle_ready
| start_game
| submit_sentence (text : string)
| submit_drawing (imageData : string)
| update_room_settings (maxRounds : option Z)
| kick_player (playerId : string)
| toggle_room_lock
| start_presentation
| show_result (index : Z)
| end_presentation
| reset_game
| get_active_rooms
| disconnect.

(** One event of socket [sid], run to completion. [None] only when
    [create-room] was given too few random draws. *)
Definition handle (st : State) (sid : string) (e : Event) : option (State * list Emit) :=
  match e with
  | connection => Some (on_connection sid st)
  | create_room nickname profilePic draws uuid now =>
      on_create_room sid nickname profilePic draws uuid now st
  | join_room roomCode nickname profilePic =>
      Some (on_join_room sid roomCode nickname profilePic st)
  | leave_room => Some (on_leave_room sid st)
  | toggle_ready => Some (on_toggle_ready sid st)
  | start_game => Some (on_start_game sid st)
  | submit_sentence text => Some (on_submit_sentence sid text st)
  | submit_drawing imageData => Some (on_submit_drawing sid imageData st)
  | update_room_settings maxRounds => Some (on_update_room_settings sid maxRounds st)
  | kick_player playerId => Some (on_kick_player sid playerId st)
  | toggle_room_lock => Some (on_toggle_room_lock sid st)
  | start_presentation => Some (on_start_presentation sid st)
  | show_result index => Some (on_show_result sid index st)
  | end_presentation => Some (on_end_presentation sid st)
  | reset_game => Some (on_reset_game sid st)
  | get_active_rooms => Some (on_get_active_rooms sid st)
  | disconnect => Some (on_disconnect sid st)
  end.

(** What the environment guarantees of an event: a connection has a new socket
    id, every other event comes from a connected socket, and [uuidv4()] returns
    an id that no room in the map has. *)
Definition admissible (st : State) (sid : string) (e : Event) : bool :=
  match e with
  | connection => negb (connected sid (sockets st))
  | create_room _ _ _ uuid _ =>
      connected sid (sockets st)
      && match rooms_get uuid (rooms st) with Some _ => false | None => true end
  | _ => connected sid (sockets st)
  end.

(** The states the process can be in. *)
Inductive reachable : State -> Prop :=
| reachable_initial : reachable initial
| reachable_step st sid e st' out :
    reachable st ->
    admissible st sid e = true ->
    handle st sid e = Some (st', out) ->
    reachable st'.

(** A run from a state, for concrete scenarios. *)
Fixpoint run (st : State) (trace : list (string * Event)) : option State :=
  match trace with
  | [] => Some st
  | (sid, e) :: more =>
      if admissible st sid e then
        match handle st sid e with
        | Some (st', _) => run st' more
        | None => None
        end
      else None
  end.

(** ** The state machine of one room

    What one event does to the room it reaches, read off the handlers; the
    lemma [handle_store_change] below ties every handler to it. *)

Definition find_player (k : string) (ps : list GamePlayer.t) : option GamePlayer.t :=
  find (fun p => GamePlayer.id p =? k)%string ps.

Definition sentence_count (room : GameRoom.t) : nat :=
  length (filter (fun s => Sentence.round s =? GameRoom.currentRound room)
                 (GameRoom.sentences room)).

Definition drawing_count (room : GameRoom.t) : nat :=
  length (filter (fun d => Drawing.round d =? GameRoom.currentRound room)
                 (GameRoom.drawings room)).

Definition add_sentence (sid text : string) (room : GameRoom.t) : GameRoom.t :=
  GameRoom.with_sentences
    (GameRoom.sentences room ++ [Sentence.mk sid text (GameRoom.currentRound room)])%list room.

Definition add_drawing (sid imageData : string) (room : GameRoom.t) : GameRoom.t :=
  GameRoom.with_drawings
    (GameRoom.drawings room ++ [Drawing.mk sid imageData (GameRoom.currentRound room)])%list room.

Definition new_room (sid nickname profilePic uuid roomCode : string) (now : Z) : GameRoom.t :=
  GameRoom.mk uuid roomCode [GamePlayer.mk sid nickname profilePic true false]
              lobby 0 3 now false [] [] default_presentation.

Definition reset_room (room : GameRoom.t) : GameRoom.t :=
  GameRoom.mk (GameRoom.id room) (GameRoom.code room)
    (map (GamePlayer.with_isReady false) (GameRoom.players room))
    lobby 0 (GameRoom.maxRounds room) (GameRoom.createdAt room) (GameRoom.locked room)
    [] [] default_presentation.

Inductive room_step (sid : string) : Event -> GameRoom.t -> GameRoom.t -> Prop :=
| step_join roomCode nickname profilePic room :
    GameRoom.locked room = false ->
    GameRoom.gameState room = lobby ->
    room_step sid (join_room roomCode nickname profilePic) room
      (GameRoom.with_players
         (GameRoom.players room ++ [GamePlayer.mk sid nickname profilePic false false])%list
         room)
| step_depart e room player :
    e = leave_room \/ e = disconnect ->
    find_player sid (GameRoom.players room) = Some player ->
    remove_player sid (GameRoom.players room) <> [] ->
    room_step sid e room
      (GameRoom.with_players
         (if GamePlayer.isHost player
          then assign_host (remove_player sid (GameRoom.players room))
          else remove_player sid (GameRoom.players room))
         room)
| step_toggle_ready room :
    room_step sid toggle_ready room
      (GameRoom.with_players
         (update_player sid
            (fun p => GamePlayer.with_isReady (negb (GamePlayer.isReady p)) p)
            (GameRoom.players room))
         room)
| step_start_game room player :
    find_player sid (GameRoom.players room) = Some player ->
    GamePlayer.isHost player = true ->
    forallb (fun p => GamePlayer.isReady p || (GamePlayer.id p =? GamePlayer.id player)%string)
            (GameRoom.players room) = true ->
    (2 <= length (GameRoom.players room))%nat ->
    room_step sid start_game room
      (GameRoom.with_currentRound 1 (GameRoom.with_gameState writing room))
| step_sentence_wait text room :
    GameRoom.gameState room = writing ->
    sentence_count (add_sentence sid text room) <> length (GameRoom.players room) ->
    room_step sid (submit_sentence text) room (add_sentence sid text room)
| step_sentence_done text room :
    GameRoom.gameState room = writing ->
    sentence_count (add_sentence sid text room) = length (GameRoom.players room) ->
    room_step sid (submit_sentence text) room
      (GameRoom.with_gameState drawing (add_sentence sid text room))
| step_drawing_wait imageData room :
    GameRoom.gameState room = drawing ->
    drawing_count (add_drawing sid imageData room) <> length (GameRoom.players room) ->
    room_step sid (submit_drawing imageData) room (add_drawing sid imageData room)
| step_drawing_results imageData room :
    GameRoom.gameState room = drawing ->
    drawing_count (add_drawing sid imageData room) = length (GameRoom.players room) ->
    GameRoom.currentRound room >= GameRoom.maxRounds room ->
    room_step sid (submit_drawing imageData) room
      (GameRoom.with_gameState results (add_drawing sid imageData room))
| step_drawing_next imageData room :
    GameRoom.gameState room = drawing ->
    drawing_count (add_drawing sid imageData room) = length (GameRoom.players room) ->
    GameRoom.currentRound room < GameRoom.maxRounds room ->
    room_step sid (submit_drawing imageData) room
      (GameRoom.with_gameState writing
         (GameRoom.with_currentRound (GameRoom.currentRound room + 1)
            (add_drawing sid imageData room)))
| step_settings maxRounds room player :
    find_player sid (GameRoom.players room) = Some player ->
    GamePlayer.isHost player = true ->
    room_step sid (update_room_settings maxRounds) room
      (match maxRounds with
       | Some n => if n =? 0 then room else GameRoom.with_maxRounds n room
       | None => room
       end)
| step_kick playerId room player playerToKick :
    find_player sid (GameRoom.players room) = Some player ->
    GamePlayer.isHost player = true ->
    find_player playerId (GameRoom.players room) = Some playerToKick ->
    playerId <> sid ->
    room_step sid (kick_player playerId) room
      (GameRoom.with_players (remove_player playerId (GameRoom.players room)) room)
| step_lock room player :
    find_player sid (GameRoom.players room) = Some player ->
    GamePlayer.isHost player = true ->
    room_step sid toggle_room_lock room
      (GameRoom.with_locked (negb (GameRoom.locked room)) room)
| step_start_presentation room player :
    find_player sid (GameRoom.players room) = Some player ->
    GamePlayer.isHost player = true ->
    GameRoom.gameState room = results ->
    room_step sid start_presentation room
      (GameRoom.with_presentationMode (PresentationMode.mk true 0) room)
| step_show_result index room player :
    find_player sid (GameRoom.players room) = Some player ->
    GamePlayer.isHost player = true ->
    PresentationMode.active (GameRoom.presentationMode room) = true ->
    room_step sid (show_result index) room
      (GameRoom.with_presentationMode (PresentationMode.mk true index) room)
| step_end_presentation room player :
    find_player sid (GameRoom.players room) = Some player ->
    GamePlayer.isHost player = true ->
    PresentationMode.active (GameRoom.presentationMode room) = true ->
    room_step sid end_presentation room
      (GameRoom.with_presentationMode default_presentation room)
| step_reset room player :
    find_player sid (GameRoom.players room) = Some player ->
    GamePlayer.isHost player = true ->
    room_step sid reset_game room (reset_room room).

(** The room an event looks up: by code for [join-room], by member for the
    events that start with [findPlayerRoom]. *)
Definition target_room (sid : string) (e : Event) (rs : list GameRoom.t)
  : option GameRoom.t :=
  match e with
  | connection | create_room _ _ _ _ _ | get_active_rooms => None
  | join_room roomCode _ _ => findRoomByCode roomCode rs
  | _ => option_map fst (findPlayerRoom sid rs)
  end.

(** What one event does to the map. *)
Inductive store_change (sid : string) (e : Event) (rs : list GameRoom.t)
  : list GameRoom.t -> Prop :=
| change_none : store_change sid e rs rs
| change_create nickname profilePic draws uuid now roomCode :
    e = create_room nickname profilePic draws uuid now ->
    generateRoomCode draws rs = Some roomCode ->
    store_change sid e rs
      (rooms_set (new_room sid nickname profilePic uuid roomCode now) rs)
| change_update room room' :
    target_room sid e rs = Some room ->
    room_step sid e room room' ->
    store_change sid e rs (rooms_set room' rs)
| change_delete room :
    e = leave_room \/ e = disconnect ->
    target_room sid e rs = Some room ->
    remove_player sid (GameRoom.players room) = [] ->
    store_change sid e rs (rooms_delete (GameRoom.id room) rs).

(** ** Predicates of the properties *)

(** A map has one entry per key. *)
Definition store_ok (rs : list GameRoom.t) : Prop :=
  NoDup (map GameRoom.id rs).

Definition host_count (ps : list GamePlayer.t) : nat :=
  length (filter GamePlayer.isHost ps).

Definition member (sid : string) (room : GameRoom.t) : Prop :=
  In sid (map GamePlayer.id (GameRoom.players room)).















(** The events whose handler starts with [findPlayerRoom(socket.id)]. *)
Definition uses_player_lookup (e : Event) : bool :=
  match e with
  | connection | create_room _ _ _ _ _ | join_room _ _ _ | get_active_rooms => false
  | _ => true
  end.

(** ** Scenarios *)

Definition draw_ABCD : Draw := (0, 1, 2, 3)%nat.
Definition draw_WXYZ : Draw := (22, 23, 24, 25)%nat.

(** Alice creates a room, Bob joins it and declares himself ready. *)
Definition lobby_trace : list (string * Event) :=
  [ ("alice", connection);
    ("bob", connection);
    ("alice", create_room "Alice" "a.png" [draw_ABCD] "room-1" 1000);
    ("bob", join_room "ABCD" "Bob" "b.png");
    ("bob", toggle_ready) ].

Definition writing_trace : list (string * Event) :=
  (lobby_trace ++ [("alice", start_game)])%list.


(** Both players submit their sentence: the room is in the drawing phase. *)
Definition drawing_trace : list (string * Event) :=
  (writing_trace ++ [("alice", submit_sentence "one"); ("bob", submit_sentence "two")])%list.

(** A one-round game in which only Bob's drawing is missing. *)
Definition last_round_trace : list (string * Event) :=
  (lobby_trace ++
   [ ("alice", update_room_settings (Some 1));
     ("alice", start_game);
     ("alice", submit_sentence "one");
     ("bob", submit_sentence "two");
     ("alice", submit_drawing "d1") ])%list.

(** Carol joins too, before the game starts. *)
Definition three_players_trace : list (string * Event) :=
  (lobby_trace ++ [("carol", connection); ("carol", join_room "ABCD" "Carol" "c.png")])%list.

(** Alice and Bob each create a room, then Alice joins Bob's. *)
Definition two_rooms_trace : list (string * Event) :=
  [ ("alice", connection);
    ("bob", connection);
    ("alice", create_room "Alice" "a.png" [draw_ABCD] "room-1" 1000);
    ("bob", create_room "Bob" "b.png" [draw_ABCD; draw_WXYZ] "room-2" 1001);
    ("alice", join_room "WXYZ" "Alice" "a.png") ].

Definition state_after (trace : list (string * Event)) : State :=
  match run initial trace with
  | Some st => st
  | None => initial
  end.

(** Bob leaves the lobby: Alice is alone in the room. *)
Definition alone_trace : list (string * Event) :=
  (lobby_trace ++ [("bob", leave_room)])%list.

(** The states at the end of the scenarios. *)
Definition lobby_state : State := Eval vm_compute in state_after lobby_trace.
Definition three_players_state : State := Eval vm_compute in state_after three_players_trace.
Definition drawing_state : State := Eval vm_compute in state_after drawing_trace.
Definition last_round_state : State := Eval vm_compute in state_after last_round_trace.
Definition two_rooms_state : State := Eval vm_compute in state_after two_rooms_trace.

(** Alice and Bob each have created a room; nobody has joined yet. *)
Definition two_created_trace : list (string * Event) :=
  [ ("alice", connection);
    ("bob", connection);
    ("alice", create_room "Alice" "a.png" [draw_ABCD] "room-1" 1000);
    ("bob", create_room "Bob" "b.png" [draw_ABCD; draw_WXYZ] "room-2" 1001) ].

Definition two_created_state : State := Eval vm_compute in state_after two_created_trace.
Definition alone_state : State := Eval vm_compute in state_after alone_trace.



(** ** The claims that the handlers do not meet, as stated *)


(** In a two-player lobby room whose host is not ready and whose other player
    is, [start-game] from the host changes nothing. *)
Definition start_needs_ready_host : Prop :=
  forall st sid room host other st' out,
    findPlayerRoom sid (rooms st) = Some (room, host) ->
    GameRoom.players room = [host; other] ->
    GameRoom.gameState room = lobby ->
    GamePlayer.isHost host = true ->
    GamePlayer.isReady host = false ->
    GamePlayer.isHost other = false ->
    GamePlayer.isReady other = true ->
    handle st sid start_game = Some (st', out) ->
    rooms st' = rooms st.



(** ** Predicates of the further properties *)

(** The events whose handler refuses a caller that is not the host. *)
Definition host_only (e : Event) : bool :=
  match e with
  | start_game | update_room_settings _ | kick_player _ | toggle_room_lock
  | start_presentation | show_result _ | end_presentation | reset_game => true
  | _ => false
  end.

(** No two rooms of the map have the same code. *)
Definition codes_ok (rs : list GameRoom.t) : Prop :=
  NoDup (map GameRoom.code rs).

(** The values [Math.floor(Math.random() * characters.length)] can take. *)
Definition valid_draw (d : Draw) : Prop :=
  let '(a, b, c, e) := d in
  (a < 26)%nat /\ (b < 26)%nat /\ (c < 26)%nat /\ (e < 26)%nat.

Definition is_upper (c : ascii) : bool :=
  (65 <=? nat_of_ascii c)%nat && (nat_of_ascii c <=? 90)%nat.

Fixpoint all_upper (s : string) : bool :=
  match s with
  | EmptyString => true
  | String c rest => is_upper c && all_upper rest
  end.

Definition is_error (m : Message) : bool :=
  match m with
  | error _ => true
  | _ => false
  end.

(** Two rooms that agree on every field but, possibly, the players. *)
Definition same_but_players (a b : GameRoom.t) : Prop :=
  GameRoom.id a = GameRoom.id b /\
  GameRoom.code a = GameRoom.code b /\
  GameRoom.gameState a = GameRoom.gameState b /\
  GameRoom.currentRound a = GameRoom.currentRound b /\
  GameRoom.maxRounds a = GameRoom.maxRounds b /\
  GameRoom.createdAt a = GameRoom.createdAt b /\
  GameRoom.locked a = GameRoom.locked b /\
  GameRoom.sentences a = GameRoom.sentences b /\
  GameRoom.drawings a = GameRoom.drawings b /\
  GameRoom.presentationMode a = GameRoom.presentationMode b.

(** A room as it is in the lobby: round 0 and nothing submitted or presented. *)
Definition pristine (room : GameRoom.t) : Prop :=
  GameRoom.currentRound room = 0 /\
  GameRoom.sentences room = [] /\
  GameRoom.drawings room = [] /\
  GameRoom.presentationMode room = default_presentation.

Definition round_shape (room : GameRoom.t) : Prop :=
  (GameRoom.gameState room = lobby -> pristine room) /\
  (GameRoom.gameState room <> lobby -> 1 <= GameRoom.currentRound room) /\
  GameRoom.maxRounds room <> 0.

(** A one-round game played to the end: the room is in the results phase. *)
Definition results_trace : list (string * Event) :=
  (last_round_trace ++ [("bob", submit_drawing "d2")])%list.

Definition results_state : State := Eval vm_compute in state_after results_trace.

(** The game has just started: writing phase, round 1. *)
Definition writing_state : State := Eval vm_compute in state_after writing_trace.



(** Drawing phase of round 1 of a three-round game, Alice's drawing is in. *)
Definition one_drawing_trace : list (string * Event) :=
  (drawing_trace ++ [("alice", submit_drawing "d1")])%list.

Definition one_drawing_state : State := Eval vm_compute in state_after one_drawing_trace.

(** ** Basic facts *)

Lemma GameState_eqb_eq (a b : GameState) : GameState_eqb a b = true <-> a = b.
Proof. destruct a, b; simpl; split; intro H; try reflexivity; discriminate H. Qed.

Lemma GameState_eqb_neq (a b : GameState) : GameState_eqb a b = false <-> a <> b.
Proof.
  destruct a, b; simpl; split; intro H; try reflexivity; try discriminate H;
    try (intro E; discriminate E); exfalso; apply H; reflexivity.
Qed.

Lemma find_player_Some k ps p :
  find_player k ps = Some p -> In p ps /\ GamePlayer.id p = k.
Proof.
  unfold find_player. intro H. apply find_some in H. destruct H as [Hin Heq].
  split; [exact Hin|]. now apply String.eqb_eq.
Qed.

Lemma findPlayerRoom_Some sid rs room player :
  findPlayerRoom sid rs = Some (room, player) ->
  In room rs /\ find_player sid (GameRoom.players room) = Some player.
Proof.
  induction rs as [|r rest IH]; simpl; [discriminate|].
  destruct (find _ (GameRoom.players r)) as [p|] eqn:E.
  - intro H. injection H as <- <-. split; [now left | exact E].
  - intro H. destruct (IH H) as [Hin Hf]. split; [now right | exact Hf].
Qed.

Lemma findRoomByCode_Some c rs room :
  findRoomByCode c rs = Some room -> In room rs /\ GameRoom.code room = c.
Proof.
  unfold findRoomByCode. intro H. apply find_some in H. destruct H as [Hin Heq].
  split; [exact Hin | now apply String.eqb_eq].
Qed.

Lemma length_zero_nil {A} (l : list A) : (length l =? 0)%nat = true <-> l = [].
Proof.
  destruct l; simpl; split; intro H; try reflexivity; discriminate H.
Qed.

(** ** Every handler is an instance of the room state machine *)

Lemma depart_store_change sid e room player ss st st' out :
  e = leave_room \/ e = disconnect ->
  findPlayerRoom sid (rooms st) = Some (room, player) ->
  depart sid room player ss st = (st', out) ->
  store_change sid e (rooms st) (rooms st').
Proof.
  intros He Hf H. unfold depart in H. cbn in H.
  assert (Ht : target_room sid e (rooms st) = Some room).
  { destruct He as [-> | ->]; simpl; rewrite Hf; reflexivity. }
  destruct (findPlayerRoom_Some _ _ _ _ Hf) as [_ Hp].
  pose proof (step_depart sid e room player He Hp) as Hs.
  destruct (remove_player sid (GameRoom.players room)) as [|q rest] eqn:Er; cbn in H.
  - injection H as <- <-. simpl. now apply change_delete.
  - rewrite andb_true_r in H. injection H as <- <-. simpl.
    assert (Hne : q :: rest <> []) by discriminate.
    specialize (Hs Hne).
    destruct (GamePlayer.isHost player); exact (change_update _ _ _ _ _ Ht Hs).
Qed.

Lemma handle_store_change st sid e st' out :
  handle st sid e = Some (st', out) ->
  store_change sid e (rooms st) (rooms st').
Proof.
  destruct e; simpl; intro H.
  - (* connection *) injection H as <- <-. apply change_none.
  - (* create-room *)
    unfold on_create_room in H.
    destruct (generateRoomCode draws (rooms st)) as [roomCode|] eqn:Eg; [|discriminate].
    injection H as <- <-. simpl. eapply change_create; [reflexivity | exact Eg].
  - (* join-room *)
    unfold on_join_room, reply_error in H.
    destruct (findRoomByCode roomCode (rooms st)) as [room|] eqn:Ef.
    + destruct (GameRoom.locked room) eqn:El.
      * injection H as <- <-. apply change_none.
      * destruct (GameState_eqb (GameRoom.gameState room) lobby) eqn:Eg; simpl in H.
        -- injection H as <- <-. simpl. apply change_update with (room := room).
           ++ exact Ef.
           ++ apply step_join; [exact El | now apply GameState_eqb_eq].
        -- injection H as <- <-. apply change_none.
    + injection H as <- <-. apply change_none.
  - (* leave-room *)
    unfold on_leave_room in H.
    destruct (findPlayerRoom sid (rooms st)) as [[room player]|] eqn:Ef.
    + injection H as H. eapply depart_store_change; eauto.
    + injection H as <- <-. apply change_none.
  - (* toggle-ready *)
    unfold on_toggle_ready in H.
    destruct (findPlayerRoom sid (rooms st)) as [[room player]|] eqn:Ef.
    + injection H as <- <-. simpl. apply change_update with (room := room).
      * simpl. now rewrite Ef.
      * apply step_toggle_ready.
    + injection H as <- <-. apply change_none.
  - (* start-game *)
    unfold on_start_game, reply_error in H.
    destruct (findPlayerRoom sid (rooms st)) as [[room player]|] eqn:Ef.
    + destruct (findPlayerRoom_Some _ _ _ _ Ef) as [_ Hp].
      destruct (GamePlayer.isHost player) eqn:Eh; simpl in H.
      * destruct (forallb _ (GameRoom.players room)) eqn:Ea; simpl in H.
        -- destruct (length (GameRoom.players room) <? 2)%nat eqn:El.
           ++ injection H as <- <-. apply change_none.
           ++ injection H as <- <-. simpl. apply change_update with (room := room).
              ** simpl. now rewrite Ef.
              ** apply step_start_game with (player := player); auto.
                 apply Nat.ltb_ge in El. exact El.
        -- injection H as <- <-. apply change_none.
      * injection H as <- <-. apply change_none.
    + injection H as <- <-. apply change_none.
  - (* submit-sentence *)
    unfold on_submit_sentence, reply_error in H.
    destruct (findPlayerRoom sid (rooms st)) as [[room player]|] eqn:Ef.
    + assert (Ht : target_room sid (submit_sentence text) (rooms st) = Some room).
      { simpl. now rewrite Ef. }
      destruct (GameState_eqb (GameRoom.gameState room) writing) eqn:Eg; simpl in H.
      * apply GameState_eqb_eq in Eg.
        match type of H with
        | context [if ?c then _ else _] => destruct c eqn:Ec
        end; injection H as <- <-; simpl.
        -- apply (change_update _ _ _ _ _ Ht).
           apply step_sentence_done; [exact Eg | now apply Nat.eqb_eq in Ec].
        -- apply (change_update _ _ _ _ _ Ht).
           apply step_sentence_wait; [exact Eg | now apply Nat.eqb_neq in Ec].
      * injection H as <- <-. apply change_none.
    + injection H as <- <-. apply change_none.
  - (* submit-drawing *)
    unfold on_submit_drawing, reply_error in H.
    destruct (findPlayerRoom sid (rooms st)) as [[room player]|] eqn:Ef.
    + assert (Ht : target_room sid (submit_drawing imageData) (rooms st) = Some room).
      { simpl. now rewrite Ef. }
      destruct (GameState_eqb (GameRoom.gameState room) drawing) eqn:Eg; simpl in H.
      * apply GameState_eqb_eq in Eg.
        match type of H with
        | context [if (?a =? ?b)%nat then _ else _] => destruct (a =? b)%nat eqn:Ec
        end.
        -- apply Nat.eqb_eq in Ec.
           destruct (GameRoom.currentRound room >=? GameRoom.maxRounds room) eqn:Er;
             injection H as <- <-; simpl; apply (change_update _ _ _ _ _ Ht).
           ++ apply step_drawing_results; auto. apply Z.geb_le in Er. lia.
           ++ apply step_drawing_next; auto.
              rewrite Z.geb_leb in Er. apply Z.leb_gt in Er. exact Er.
        -- injection H as <- <-; simpl. apply (change_update _ _ _ _ _ Ht).
           apply step_drawing_wait; [exact Eg | now apply Nat.eqb_neq in Ec].
      * injection H as <- <-. apply change_none.
    + injection H as <- <-. apply change_none.
  - (* update-room-settings *)
    unfold on_update_room_settings, reply_error in H.
    destruct (findPlayerRoom sid (rooms st)) as [[room player]|] eqn:Ef.
    + destruct (findPlayerRoom_Some _ _ _ _ Ef) as [_ Hp].
      destruct (GamePlayer.isHost player) eqn:Eh; simpl in H;
        injection H as <- <-; [|apply change_none].
      simpl. apply change_update with (room := room).
      * simpl. now rewrite Ef.
      * now apply step_settings with (player := player).
    + injection H as <- <-. apply change_none.
  - (* kick-player *)
    unfold on_kick_player, reply_error in H.
    destruct (findPlayerRoom sid (rooms st)) as [[room player]|] eqn:Ef.
    + destruct (findPlayerRoom_Some _ _ _ _ Ef) as [_ Hp].
      destruct (GamePlayer.isHost player) eqn:Eh; simpl in H.
      * destruct (find _ (GameRoom.players room)) as [target|] eqn:Et.
        -- destruct (playerId =? sid)%string eqn:Es; injection H as <- <-.
           ++ apply change_none.
           ++ simpl. apply change_update with (room := room).
              ** simpl. now rewrite Ef.
              ** apply step_kick with (player := player) (playerToKick := target); auto.
                 now apply String.eqb_neq.
        -- injection H as <- <-. apply change_none.
      * injection H as <- <-. apply change_none.
    + injection H as <- <-. apply change_none.
  - (* toggle-room-lock *)
    unfold on_toggle_room_lock, reply_error in H.
    destruct (findPlayerRoom sid (rooms st)) as [[room player]|] eqn:Ef.
    + destruct (findPlayerRoom_Some _ _ _ _ Ef) as [_ Hp].
      destruct (GamePlayer.isHost player) eqn:Eh; simpl in H;
        injection H as <- <-; [|apply change_none].
      simpl. apply change_update with (room := room).
      * simpl. now rewrite Ef.
      * now apply step_lock with (player := player).
    + injection H as <- <-. apply change_none.
  - (* start-presentation *)
    unfold on_start_presentation, reply_error in H.
    destruct (findPlayerRoom sid (rooms st)) as [[room player]|] eqn:Ef.
    + destruct (findPlayerRoom_Some _ _ _ _ Ef) as [_ Hp].
      destruct (GamePlayer.isHost player) eqn:Eh; simpl in H.
      * destruct (GameState_eqb (GameRoom.gameState room) results) eqn:Eg; simpl in H;
          injection H as <- <-; [|apply change_none].
        simpl. apply change_update with (room := room).
        -- simpl. now rewrite Ef.
        -- apply step_start_presentation with (player := player); auto.
           now apply GameState_eqb_eq.
      * injection H as <- <-. apply change_none.
    + injection H as <- <-. apply change_none.
  - (* show-result *)
    unfold on_show_result, reply_error in H.
    destruct (findPlayerRoom sid (rooms st)) as [[room player]|] eqn:Ef.
    + destruct (findPlayerRoom_Some _ _ _ _ Ef) as [_ Hp].
      destruct (GamePlayer.isHost player) eqn:Eh; simpl in H.
      * destruct (PresentationMode.active (GameRoom.presentationMode room)) eqn:Ea;
          simpl in H; injection H as <- <-; [|apply change_none].
        simpl. apply change_update with (room := room).
        -- simpl. now rewrite Ef.
        -- now apply step_show_result with (player := player).
      * injection H as <- <-. apply change_none.
    + injection H as <- <-. apply change_none.
  - (* end-presentation *)
    unfold on_end_presentation, reply_error in H.
    destruct (findPlayerRoom sid (rooms st)) as [[room player]|] eqn:Ef.
    + destruct (findPlayerRoom_Some _ _ _ _ Ef) as [_ Hp].
      destruct (GamePlayer.isHost player) eqn:Eh; simpl in H.
      * destruct (PresentationMode.active (GameRoom.presentationMode room)) eqn:Ea;
          simpl in H; injection H as <- <-; [|apply change_none].
        simpl. apply change_update with (room := room).
        -- simpl. now rewrite Ef.
        -- now apply step_end_presentation with (player := player).
      * injection H as <- <-. apply change_none.
    + injection H as <- <-. apply change_none.
  - (* reset-game *)
    unfold on_reset_game, reply_error in H.
    destruct (findPlayerRoom sid (rooms st)) as [[room player]|] eqn:Ef.
    + destruct (findPlayerRoom_Some _ _ _ _ Ef) as [_ Hp].
      destruct (GamePlayer.isHost player) eqn:Eh; simpl in H;
        injection H as <- <-; [|apply change_none].
      simpl. apply change_update with (room := room) (room' := reset_room room).
      * simpl. now rewrite Ef.
      * now apply step_reset with (player := player).
    + injection H as <- <-. apply change_none.
  - (* get-active-rooms *)
    injection H as <- <-. apply change_none.
  - (* disconnect *)
    unfold on_disconnect in H.
    destruct (findPlayerRoom sid (rooms st)) as [[room player]|] eqn:Ef.
    + injection H as H. eapply depart_store_change; eauto.
    + injection H as <- <-. apply change_none.
Qed.

(** ** The room map: get, set, delete *)


Lemma rooms_get_set_same room rs :
  rooms_get (GameRoom.id room) (rooms_set room rs) = Some room.
Proof.
  unfold rooms_get. induction rs as [|r rest IH]; simpl.
  - now rewrite String.eqb_refl.
  - destruct (GameRoom.id r =? GameRoom.id room)%string eqn:E; simpl.
    + now rewrite String.eqb_refl.
    + now rewrite E.
Qed.

Lemma rooms_get_set_other k room rs :
  k <> GameRoom.id room ->
  rooms_get k (rooms_set room rs) = rooms_get k rs.
Proof.
  intro Hk. unfold rooms_get. induction rs as [|r rest IH]; simpl.
  - apply String.eqb_neq in Hk. rewrite String.eqb_sym in Hk. now rewrite Hk.
  - destruct (GameRoom.id r =? GameRoom.id room)%string eqn:E; simpl.
    + apply String.eqb_eq in E. rewrite E.
      apply String.eqb_neq in Hk. rewrite String.eqb_sym in Hk. now rewrite Hk.
    + now rewrite IH.
Qed.

Lemma rooms_get_delete_same k rs : rooms_get k (rooms_delete k rs) = None.
Proof.
  unfold rooms_get, rooms_delete. induction rs as [|r rest IH]; simpl; [reflexivity|].
  destruct (GameRoom.id r =? k)%string eqn:E; simpl; [exact IH|]. now rewrite E.
Qed.

Lemma rooms_get_delete_other k k' rs :
  k <> k' -> rooms_get k (rooms_delete k' rs) = rooms_get k rs.
Proof.
  intro Hk. unfold rooms_get, rooms_delete. induction rs as [|r rest IH]; simpl; [reflexivity|].
  destruct (GameRoom.id r =? k')%string eqn:E; simpl.
  - apply String.eqb_eq in E. subst k'.
    apply String.eqb_neq in Hk. rewrite String.eqb_sym in Hk. now rewrite Hk.
  - now rewrite IH.
Qed.

Lemma In_rooms_set r room rs :
  In r (rooms_set room rs) -> r = room \/ In r rs.
Proof.
  induction rs as [|x rest IH]; simpl.
  - intros [<- | []]. now left.
  - destruct (GameRoom.id x =? GameRoom.id room)%string; simpl.
    + intros [<- | H]; [now left | right; now right].
    + intros [<- | H]; [right; now left|]. destruct (IH H); [now left | right; now right].
Qed.

Lemma In_rooms_delete r k rs : In r (rooms_delete k rs) -> In r rs.
Proof. unfold rooms_delete. intro H. now apply filter_In in H. Qed.

Lemma map_id_rooms_set room rs :
  map GameRoom.id (rooms_set room rs) =
  if existsb (fun r => GameRoom.id r =? GameRoom.id room)%string rs
  then map GameRoom.id rs
  else (map GameRoom.id rs ++ [GameRoom.id room])%list.
Proof.
  induction rs as [|x rest IH]; simpl; [reflexivity|].
  destruct (GameRoom.id x =? GameRoom.id room)%string eqn:E; simpl.
  - apply String.eqb_eq in E. now rewrite E.
  - rewrite IH. now destruct (existsb _ rest).
Qed.

Lemma store_ok_set room rs : store_ok rs -> store_ok (rooms_set room rs).
Proof.
  unfold store_ok. intro H. rewrite map_id_rooms_set.
  destruct (existsb _ rs) eqn:E; [exact H|].
  apply NoDup_app; [exact H | repeat constructor; intros [] | ].
  intros k Hk [<- | []].
  apply in_map_iff in Hk. destruct Hk as [r [Hr Hin]].
  assert (existsb (fun r0 => GameRoom.id r0 =? GameRoom.id room)%string rs = true).
  { apply existsb_exists. exists r. split; [exact Hin | now apply String.eqb_eq]. }
  congruence.
Qed.

Lemma store_ok_delete k rs : store_ok rs -> store_ok (rooms_delete k rs).
Proof.
  unfold store_ok, rooms_delete. induction rs as [|x rest IH]; simpl; [auto|].
  intro H. inversion H as [|? ? Hn Hr]; subst.
  destruct (negb (GameRoom.id x =? k)%string); simpl; [|now apply IH].
  constructor; [|now apply IH].
  intro Hin. apply Hn. apply in_map_iff in Hin. destruct Hin as [r [Hr' Hin]].
  apply in_map_iff. exists r. split; [exact Hr'|]. now apply filter_In in Hin.
Qed.

Lemma store_ok_get room rs :
  store_ok rs -> In room rs -> rooms_get (GameRoom.id room) rs = Some room.
Proof.
  unfold store_ok, rooms_get. induction rs as [|x rest IH]; simpl; [intros _ []|].
  intros H Hin. inversion H as [|? ? Hn Hr]; subst.
  destruct Hin as [-> | Hin].
  - now rewrite String.eqb_refl.
  - destruct (GameRoom.id x =? GameRoom.id room)%string eqn:E; [|now apply IH].
    apply String.eqb_eq in E. exfalso. apply Hn. rewrite E. now apply in_map.
Qed.

Lemma store_change_ok sid e rs rs' :
  store_ok rs -> store_change sid e rs rs' -> store_ok rs'.
Proof.
  intros H Hc. destruct Hc; auto using store_ok_set, store_ok_delete.
Qed.

Lemma reachable_store_ok st : reachable st -> store_ok (rooms st).
Proof.
  induction 1 as [|st sid e st' out _ IH _ Hh].
  - constructor.
  - eapply store_change_ok; [exact IH | eapply handle_store_change; exact Hh].
Qed.

Lemma run_reachable trace : forall st st',
  reachable st -> run st trace = Some st' -> reachable st'.
Proof.
  induction trace as [|[sid e] more IH]; simpl; intros st st' Hr H.
  - now injection H as <-.
  - destruct (admissible st sid e) eqn:Ea; [|discriminate].
    destruct (handle st sid e) as [[st1 out]|] eqn:Eh; [|discriminate].
    eapply IH; [|exact H]. eapply reachable_step; eauto.
Qed.

Lemma room_step_id sid e room room' :
  room_step sid e room room' -> GameRoom.id room' = GameRoom.id room.
Proof.
  destruct 1; try reflexivity.
  destruct maxRounds as [n|]; [destruct (n =? 0)|]; reflexivity.
Qed.

Lemma target_room_In sid e rs room :
  target_room sid e rs = Some room -> In room rs.
Proof.
  destruct e; simpl; try discriminate;
    try (destruct (findPlayerRoom sid rs) as [[r p]|] eqn:E; simpl; [|discriminate];
         intro H; injection H as <-; now apply findPlayerRoom_Some in E).
  intro H. now apply findRoomByCode_Some in H.
Qed.

Lemma target_room_lookup sid e rs room :
  uses_player_lookup e = true ->
  target_room sid e rs = Some room ->
  exists player, findPlayerRoom sid rs = Some (room, player).
Proof.
  destruct e; simpl; try discriminate; intros _;
    destruct (findPlayerRoom sid rs) as [[r p]|]; simpl; try discriminate;
    intro H; injection H as <-; now exists p.
Qed.

(** ** Invariants of every room in the map *)

Section RoomInvariant.

Variable P : GameRoom.t -> Prop.

Hypothesis P_new :
  forall sid nickname profilePic uuid roomCode now,
    P (new_room sid nickname profilePic uuid roomCode now).

Hypothesis P_step :
  forall sid e room room', P room -> room_step sid e room room' -> P room'.

Lemma store_change_invariant sid e rs rs' :
  (forall r, In r rs -> P r) ->
  store_change sid e rs rs' ->
  forall r, In r rs' -> P r.
Proof.
  intros Hall Hc r Hin. destruct Hc as [| ? ? ? ? ? ? _ _ | room room' Ht Hs | room _ _ _].
  - now apply Hall.
  - apply In_rooms_set in Hin. destruct Hin as [-> | Hin]; [apply P_new | now apply Hall].
  - apply In_rooms_set in Hin. destruct Hin as [-> | Hin]; [|now apply Hall].
    apply (P_step sid e room); [|exact Hs]. apply Hall. eapply target_room_In; eauto.
  - apply Hall. eapply In_rooms_delete; eauto.
Qed.

Lemma reachable_invariant st :
  reachable st -> forall r, In r (rooms st) -> P r.
Proof.
  induction 1 as [|st sid e st' out _ IH _ Hh].
  - intros r [].
  - eapply store_change_invariant; [exact IH | eapply handle_store_change; exact Hh].
Qed.

End RoomInvariant.

(** ** Counting hosts *)

Lemma host_count_app ps qs :
  host_count (ps ++ qs) = (host_count ps + host_count qs)%nat.
Proof. unfold host_count. now rewrite filter_app, length_app. Qed.

Lemma host_count_zero ps p :
  host_count ps = 0%nat -> In p ps -> GamePlayer.isHost p = false.
Proof.
  unfold host_count. induction ps as [|q rest IH]; simpl; [intros _ []|].
  destruct (GamePlayer.isHost q) eqn:E; simpl; [discriminate|].
  intros H [<- | Hin]; [exact E | now apply IH].
Qed.

Lemma host_count_remove k ps player :
  find_player k ps = Some player ->
  host_count ps =
  ((if GamePlayer.isHost player then 1 else 0) + host_count (remove_player k ps))%nat.
Proof.
  unfold find_player, host_count. induction ps as [|q rest IH]; simpl; [discriminate|].
  destruct (GamePlayer.id q =? k)%string.
  - intro H. injection H as <-. destruct (GamePlayer.isHost q); reflexivity.
  - intro H. specialize (IH H). simpl.
    destruct (GamePlayer.isHost q), (GamePlayer.isHost player); simpl in *; lia.
Qed.

Lemma host_count_assign ps :
  host_count ps = 0%nat -> ps <> [] -> host_count (assign_host ps) = 1%nat.
Proof.
  unfold host_count. destruct ps as [|q rest]; [congruence|]. simpl.
  destruct (GamePlayer.isHost q); simpl; [discriminate|]. intros -> _. reflexivity.
Qed.

Lemma host_count_update k f ps :
  (forall p, GamePlayer.isHost (f p) = GamePlayer.isHost p) ->
  host_count (update_player k f ps) = host_count ps.
Proof.
  intro Hf. unfold host_count. induction ps as [|q rest IH]; simpl; [reflexivity|].
  destruct (GamePlayer.id q =? k)%string; simpl.
  - rewrite Hf. destruct (GamePlayer.isHost q); reflexivity.
  - destruct (GamePlayer.isHost q); simpl; now rewrite IH.
Qed.

Lemma host_count_map f ps :
  (forall p, GamePlayer.isHost (f p) = GamePlayer.isHost p) ->
  host_count (map f ps) = host_count ps.
Proof.
  intro Hf. unfold host_count. induction ps as [|q rest IH]; simpl; [reflexivity|].
  rewrite Hf. destruct (GamePlayer.isHost q); simpl; now rewrite IH.
Qed.

Lemma host_count_found k ps player :
  find_player k ps = Some player ->
  GamePlayer.isHost player = true ->
  (1 <= host_count ps)%nat.
Proof.
  intros Hf Hh. rewrite (host_count_remove _ _ _ Hf), Hh. lia.
Qed.

(** With one host in the room, anybody whose id is not the host's is not a host. *)
Lemma only_host k k' ps host other :
  host_count ps = 1%nat ->
  find_player k ps = Some host ->
  GamePlayer.isHost host = true ->
  find_player k' ps = Some other ->
  k' <> k ->
  GamePlayer.isHost other = false.
Proof.
  intros Hc Hh Hhost Ho Hk.
  destruct (GamePlayer.isHost other) eqn:E; [exfalso | reflexivity].
  revert Hc Hh Ho. unfold find_player, host_count.
  induction ps as [|q rest IH]; simpl; [discriminate|].
  destruct (GamePlayer.id q =? k)%string eqn:Ek, (GamePlayer.id q =? k')%string eqn:Ek'.
  - apply String.eqb_eq in Ek, Ek'. congruence.
  - intros Hc Hq Ho. injection Hq as ->. rewrite Hhost in Hc. simpl in Hc.
    pose proof (host_count_found k' rest other Ho E) as Hge.
    unfold host_count in Hge. lia.
  - intros Hc Hq Ho. injection Ho as ->. rewrite E in Hc. simpl in Hc.
    pose proof (host_count_found k rest host Hq Hhost) as Hge.
    unfold host_count in Hge. lia.
  - intros Hc Hq Ho. destruct (GamePlayer.isHost q); simpl in Hc.
    + pose proof (host_count_found k rest host Hq Hhost) as Hge.
      unfold host_count in Hge. lia.
    + now apply IH.
Qed.

Lemma room_step_one_host sid e room room' :
  host_count (GameRoom.players room) = 1%nat ->
  room_step sid e room room' ->
  host_count (GameRoom.players room') = 1%nat.
Proof.
  intros Hc Hs.
  destruct Hs as
    [ ? ? ? room _ _
    | e room player _ Hp Hne
    | room
    | room player _ _ _ _
    | ? room _ _ | ? room _ _
    | ? room _ _ | ? room _ _ _ | ? room _ _ _
    | maxRounds room player _ _
    | playerId room player target Hp Hh Ht Hk
    | room player _ _ | room player _ _ _ | ? room player _ _ _
    | room player _ _ _ | room player _ _ ]; simpl; try exact Hc.
  - rewrite host_count_app, Hc. reflexivity.
  - pose proof (host_count_remove _ _ _ Hp) as Hr. rewrite Hc in Hr.
    destruct (GamePlayer.isHost player).
    + apply host_count_assign; [lia | exact Hne].
    + lia.
  - rewrite host_count_update; [exact Hc | reflexivity].
  - destruct maxRounds as [n|]; [destruct (n =? 0)|]; exact Hc.
  - pose proof (host_count_remove _ _ _ Ht) as Hr.
    rewrite (only_host _ _ _ _ _ Hc Hp Hh Ht Hk) in Hr. lia.
  - rewrite host_count_map; [exact Hc | reflexivity].
Qed.

Lemma reachable_one_host st room :
  reachable st -> In room (rooms st) -> host_count (GameRoom.players room) = 1%nat.
Proof.
  intros Hr. revert room.
  apply (reachable_invariant (fun r => host_count (GameRoom.players r) = 1%nat));
    [reflexivity | exact room_step_one_host | exact Hr].
Qed.

Lemma scenario_reachable trace st : run initial trace = Some st -> reachable st.
Proof. exact (run_reachable trace initial st reachable_initial). Qed.

Lemma lobby_state_reachable : reachable lobby_state.
Proof. apply (scenario_reachable lobby_trace). vm_compute. reflexivity. Qed.

Lemma three_players_state_reachable : reachable three_players_state.
Proof. apply (scenario_reachable three_players_trace). vm_compute. reflexivity. Qed.


Lemma drawing_state_reachable : reachable drawing_state.
Proof. apply (scenario_reachable drawing_trace). vm_compute. reflexivity. Qed.


Lemma two_rooms_state_reachable : reachable two_rooms_state.
Proof. apply (scenario_reachable two_rooms_trace). vm_compute. reflexivity. Qed.

Lemma alone_state_reachable : reachable alone_state.
Proof. apply (scenario_reachable alone_trace). vm_compute. reflexivity. Qed.

(** ** One host per room *)

(** C4: in every reachable state -- whatever events led to it, create-room,
    join-room, leave-room, kick-player and disconnect among them -- every room
    of the map that has at least one player has exactly one player with
    [isHost = true]. *)
Theorem exactly_one_host st room :
  reachable st ->
  In room (rooms st) ->
  (0 < length (GameRoom.players room))%nat ->
  host_count (GameRoom.players room) = 1%nat.
Proof.
  intros Hr Hin _. now apply (reachable_one_host st).
Qed.

Lemma exactly_one_host_witness :
  exists room,
    In room (rooms three_players_state) /\
    length (GameRoom.players room) = 3%nat /\
    host_count (GameRoom.players room) = 1%nat.
Proof.
  eexists. split; [left; reflexivity|]. split; [reflexivity|].
  apply (exactly_one_host three_players_state).
  - exact three_players_state_reachable.
  - left. reflexivity.
  - simpl. lia.
Defined.

(** ** A room is in the map exactly as long as it has players *)

Lemma depart_empty sid room player ss st :
  remove_player sid (GameRoom.players room) = [] ->
  depart sid room player ss st =
  (mkState (rooms_delete (GameRoom.id room) (rooms st)) ss,
   [emitActiveRoomsToAll (rooms_delete (GameRoom.id room) (rooms st))]).
Proof. intro H. unfold depart. cbn. rewrite H. reflexivity. Qed.

Lemma rooms_get_set_kept k room' rs room :
  rooms_get k rs = Some room -> rooms_get k (rooms_set room' rs) <> None.
Proof.
  intro H. destruct (string_dec k (GameRoom.id room')) as [-> | Hk].
  - rewrite rooms_get_set_same. discriminate.
  - rewrite rooms_get_set_other by exact Hk. rewrite H. discriminate.
Qed.

(** C5: a room of the map always has a player, and one event removes a room
    from the map exactly when it is a leave-room or a disconnect of a socket
    that the lookup finds in that room and whose removal empties the room's
    players list; join-room, kick-player and every other event delete
    nothing. *)
Theorem room_present_iff_players st :
  reachable st ->
  (forall room, In room (rooms st) -> (0 < length (GameRoom.players room))%nat) /\
  (forall sid e st' out room,
      handle st sid e = Some (st', out) ->
      In room (rooms st) ->
      (rooms_get (GameRoom.id room) (rooms st') = None <->
       (e = leave_room \/ e = disconnect) /\
       (exists player, findPlayerRoom sid (rooms st) = Some (room, player)) /\
       remove_player sid (GameRoom.players room) = [])).
Proof.
  intro Hr. split.
  - intros room Hin. pose proof (reachable_one_host st room Hr Hin) as Hc.
    unfold host_count in Hc. destruct (GameRoom.players room); simpl in *; [discriminate | lia].
  - intros sid e st' out room Hh Hin.
    pose proof (reachable_store_ok st Hr) as Hok.
    pose proof (store_ok_get room (rooms st) Hok Hin) as Hget.
    split.
    + intro Hnone. pose proof (handle_store_change _ _ _ _ _ Hh) as Hc.
      destruct Hc as [| ? ? ? ? ? ? _ _ | room0 room' Ht Hs | room0 He Ht Hrm].
      * congruence.
      * exfalso. eapply rooms_get_set_kept; eauto.
      * exfalso. eapply rooms_get_set_kept; eauto.
      * destruct (string_dec (GameRoom.id room) (GameRoom.id room0)) as [E | E].
        -- assert (room0 = room) as ->.
           { pose proof (store_ok_get room0 (rooms st) Hok (target_room_In _ _ _ _ Ht)) as H0.
             rewrite <- E in H0. congruence. }
           split; [exact He|]. split; [|exact Hrm].
           apply (target_room_lookup sid e); [|exact Ht].
           destruct He as [-> | ->]; reflexivity.
        -- rewrite rooms_get_delete_other in Hnone by exact E. congruence.
    + intros [He [[player Hf] Hrm]].
      destruct He as [-> | ->]; simpl in Hh.
      * unfold on_leave_room in Hh. rewrite Hf, (depart_empty _ _ _ _ _ Hrm) in Hh.
        injection Hh as <- _. simpl. apply rooms_get_delete_same.
      * unfold on_disconnect in Hh. rewrite Hf, (depart_empty _ _ _ _ _ Hrm) in Hh.
        injection Hh as <- _. simpl. apply rooms_get_delete_same.
Qed.

Lemma room_present_iff_players_witness :
  (forall room, In room (rooms alone_state) ->
                (0 < length (GameRoom.players room))%nat) /\
  (exists st' out,
      handle alone_state "alice" disconnect = Some (st', out) /\
      rooms_get "room-1" (rooms st') = None).
Proof.
  pose proof (room_present_iff_players alone_state alone_state_reachable) as [Hpos Hdel].
  split; [exact Hpos|].
  do 2 eexists. split; [reflexivity|].
  refine (proj2 (Hdel "alice" disconnect _ _ _ eq_refl (or_introl eq_refl)) _).
  split; [right; reflexivity|].
  split; [eexists; reflexivity | reflexivity].
Defined.

(** ** Host-only events refused *)

(** C8: kick-player from a socket that the lookup finds in a room without the
    host flag emits one error, to that socket alone, and leaves the whole state
    as it was: the room record is the same and the target is still in it. *)
Theorem kick_by_non_host st sid playerId room player :
  findPlayerRoom sid (rooms st) = Some (room, player) ->
  GamePlayer.isHost player = false ->
  handle st sid (kick_player playerId) =
    Some (st, [(socket_emit sid, error "Only the host can kick players")]) /\
  recipients (sockets st) (socket_emit sid) = [sid].
Proof.
  intros Hf Hh. split; [|reflexivity].
  simpl. unfold on_kick_player. rewrite Hf, Hh. reflexivity.
Qed.

Lemma kick_by_non_host_witness :
  handle three_players_state "bob" (kick_player "carol") =
    Some (three_players_state,
          [(socket_emit "bob", error "Only the host can kick players")]) /\
  recipients (sockets three_players_state) (socket_emit "bob") = ["bob"].
Proof.
  eapply (kick_by_non_host three_players_state "bob" "carol");
    reflexivity.
Defined.

(** C9: end-presentation from the host of a room whose presentation is not
    active emits one error to the caller and changes nothing: the state after
    the event, the room and its presentation included, is the state before. *)
Theorem end_presentation_when_inactive st sid room player :
  findPlayerRoom sid (rooms st) = Some (room, player) ->
  GamePlayer.isHost player = true ->
  PresentationMode.active (GameRoom.presentationMode room) = false ->
  handle st sid end_presentation =
    Some (st, [(socket_emit sid, error "Presentation mode not active")]).
Proof.
  intros Hf Hh Ha. simpl. unfold on_end_presentation. rewrite Hf, Hh, Ha. reflexivity.
Qed.

Lemma end_presentation_when_inactive_witness :
  handle lobby_state "alice" end_presentation =
    Some (lobby_state,
          [(socket_emit "alice", error "Presentation mode not active")]).
Proof.
  eapply (end_presentation_when_inactive lobby_state "alice");
    reflexivity.
Defined.

(** ** Submitting a drawing *)

(** C6: submit-drawing from a member of a room in the drawing phase appends
    the drawing tagged with the current round. When the drawings tagged with
    the current round are then as many as the players: with
    [currentRound >= maxRounds] the phase becomes results and the round stays;
    otherwise the round grows by one and the phase becomes writing. When they
    are not as many, phase and round stay. *)
Theorem submit_drawing_effect st sid imageData room player :
  findPlayerRoom sid (rooms st) = Some (room, player) ->
  GameRoom.gameState room = drawing ->
  exists st' out room',
    handle st sid (submit_drawing imageData) = Some (st', out) /\
    rooms_get (GameRoom.id room) (rooms st') = Some room' /\
    GameRoom.drawings room' =
      (GameRoom.drawings room ++ [Drawing.mk sid imageData (GameRoom.currentRound room)])%list /\
    GameRoom.players room' = GameRoom.players room /\
    GameRoom.maxRounds room' = GameRoom.maxRounds room /\
    (drawing_count (add_drawing sid imageData room) = length (GameRoom.players room) ->
     GameRoom.currentRound room >= GameRoom.maxRounds room ->
     GameRoom.gameState room' = results /\
     GameRoom.currentRound room' = GameRoom.currentRound room) /\
    (drawing_count (add_drawing sid imageData room) = length (GameRoom.players room) ->
     GameRoom.currentRound room < GameRoom.maxRounds room ->
     GameRoom.gameState room' = writing /\
     GameRoom.currentRound room' = GameRoom.currentRound room + 1) /\
    (drawing_count (add_drawing sid imageData room) <> length (GameRoom.players room) ->
     GameRoom.gameState room' = drawing /\
     GameRoom.currentRound room' = GameRoom.currentRound room).
Proof.
  intros Hf Hg. simpl. unfold on_submit_drawing. rewrite Hf, Hg. simpl.
  fold (add_drawing sid imageData room).
  change (length (filter _ _)) with (drawing_count (add_drawing sid imageData room)).
  destruct (drawing_count (add_drawing sid imageData room)
            =? length (GameRoom.players room))%nat eqn:Ec.
  - apply Nat.eqb_eq in Ec.
    destruct (GameRoom.currentRound room >=? GameRoom.maxRounds room) eqn:Er.
    + apply Z.geb_le in Er.
      do 3 eexists. split; [reflexivity|]. simpl.
      split; [exact (rooms_get_set_same (GameRoom.with_gameState results (add_drawing sid imageData room)) (rooms st))|].
      simpl. repeat split; auto; try lia; congruence.
    + rewrite Z.geb_leb in Er. apply Z.leb_gt in Er.
      do 3 eexists. split; [reflexivity|]. simpl.
      split; [exact (rooms_get_set_same (GameRoom.with_gameState writing (GameRoom.with_currentRound (GameRoom.currentRound room + 1) (add_drawing sid imageData room))) (rooms st))|].
      simpl. repeat split; auto; try lia; congruence.
  - apply Nat.eqb_neq in Ec.
    do 3 eexists. split; [reflexivity|]. simpl.
    split; [exact (rooms_get_set_same (add_drawing sid imageData room) (rooms st))|].
    simpl. repeat split; auto; try lia; congruence.
Qed.

Lemma submit_drawing_effect_witness :
  exists st' out room',
    handle last_round_state "bob" (submit_drawing "d2") = Some (st', out) /\
    rooms_get "room-1" (rooms st') = Some room' /\
    GameRoom.gameState room' = results /\
    GameRoom.currentRound room' = 1.
Proof.
  edestruct (submit_drawing_effect last_round_state "bob" "d2")
    as (st' & out & room' & Hh & Hg & _ & _ & _ & Hres & _).
  - reflexivity.
  - reflexivity.
  - exists st', out, room'. split; [exact Hh|]. split; [exact Hg|].
    apply Hres.
    + reflexivity.
    + vm_compute. discriminate.
Defined.

(** ** Starting the game *)

Lemma all_others_ready sid ps host :
  find_player sid ps = Some host ->
  (forall p, In p ps -> GamePlayer.id p <> sid -> GamePlayer.isReady p = true) ->
  forallb (fun p => GamePlayer.isReady p || (GamePlayer.id p =? GamePlayer.id host)%string) ps
  = true.
Proof.
  intros Hf Hall. apply find_player_Some in Hf. destruct Hf as [_ Hid].
  apply forallb_forall. intros p Hin. rewrite Hid.
  destruct (GamePlayer.id p =? sid)%string eqn:E.
  - apply orb_true_r.
  - apply String.eqb_neq in E. now rewrite (Hall p Hin E).
Qed.

(** C2, as the handler has it: in a two-player room whose other player is
    ready, start-game from the host succeeds at once, whether or not the host
    is ready -- the check exempts the caller -- and sets the phase to writing
    and the round to 1. *)
Theorem start_game_exempts_host st sid room host :
  findPlayerRoom sid (rooms st) = Some (room, host) ->
  GamePlayer.isHost host = true ->
  length (GameRoom.players room) = 2%nat ->
  (forall p, In p (GameRoom.players room) -> GamePlayer.id p <> sid ->
             GamePlayer.isReady p = true) ->
  exists st' out room',
    handle st sid start_game = Some (st', out) /\
    rooms_get (GameRoom.id room) (rooms st') = Some room' /\
    room' = GameRoom.with_currentRound 1 (GameRoom.with_gameState writing room) /\
    GameRoom.gameState room' = writing /\
    GameRoom.currentRound room' = 1 /\
    In (io_to (GameRoom.id room), game_started room') out.
Proof.
  intros Hf Hh Hl Hall. simpl. unfold on_start_game. rewrite Hf, Hh. simpl.
  destruct (findPlayerRoom_Some _ _ _ _ Hf) as [_ Hp].
  rewrite (all_others_ready sid _ host Hp Hall), Hl. simpl.
  do 3 eexists. split; [reflexivity|]. simpl.
  split; [exact (rooms_get_set_same
                   (GameRoom.with_currentRound 1 (GameRoom.with_gameState writing room))
                   (rooms st))|].
  repeat split. now left.
Qed.

Lemma start_game_exempts_host_witness :
  exists st' out room',
    handle lobby_state "alice" start_game = Some (st', out) /\
    rooms_get "room-1" (rooms st') = Some room' /\
    GameRoom.gameState room' = writing /\
    GameRoom.currentRound room' = 1.
Proof.
  edestruct (start_game_exempts_host lobby_state "alice")
    as (st' & out & room' & Hh & Hg & _ & Hw & Hr & _).
  - reflexivity.
  - reflexivity.
  - reflexivity.
  - intros p [<- | [<- | []]] Hid; [exfalso; apply Hid|]; reflexivity.
  - exists st', out, room'. repeat split; assumption.
Defined.

(** C2, as stated, fails: after Alice created the room and Bob joined and
    toggled ready, Alice -- host, not ready -- starts the game and the room
    leaves the lobby. *)
Lemma start_game_without_ready_host : ~ start_needs_ready_host.
Proof.
  intro H.
  pose proof (H lobby_state "alice" _ _ _ _ _
                eq_refl eq_refl eq_refl eq_refl eq_refl eq_refl eq_refl eq_refl) as E.
  vm_compute in E. discriminate E.
Qed.

(** ** The host leaves *)

Lemma in_recipients_group q g ss :
  In q (recipients ss (io_to g)) <->
  exists s, In s ss /\ in_group g s = true /\ fst s = q.
Proof.
  simpl. rewrite in_map_iff. split.
  - intros [s [Hq Hin]]. apply filter_In in Hin. destruct Hin as [Hin Hg].
    exists s. auto.
  - intros [s [Hin [Hg Hq]]]. exists s. split; [exact Hq|].
    apply filter_In. auto.
Qed.





(** ** Phase transitions *)

Lemma one_step_room st sid e st' out rid room room' :
  reachable st ->
  admissible st sid e = true ->
  handle st sid e = Some (st', out) ->
  rooms_get rid (rooms st) = Some room ->
  rooms_get rid (rooms st') = Some room' ->
  room' = room \/ room_step sid e room room'.
Proof.
  intros Hr Ha Hh Hg Hg'.
  pose proof (reachable_store_ok st Hr) as Hok.
  pose proof (handle_store_change _ _ _ _ _ Hh) as Hc.
  destruct Hc as [| nickname profilePic draws uuid now roomCode -> _
                  | room0 room1 Ht Hs | room0 _ _ _].
  - left. congruence.
  - left. simpl in Ha. apply andb_true_iff in Ha. destruct Ha as [_ Ha].
    destruct (string_dec rid uuid) as [-> | Hne].
    + rewrite Hg in Ha. discriminate Ha.
    + rewrite rooms_get_set_other in Hg' by exact Hne. congruence.
  - pose proof (room_step_id _ _ _ _ Hs) as Hid.
    destruct (string_dec rid (GameRoom.id room1)) as [-> | Hne].
    + rewrite rooms_get_set_same in Hg'. injection Hg' as <-.
      rewrite Hid in Hg.
      rewrite (store_ok_get room0 (rooms st) Hok (target_room_In _ _ _ _ Ht)) in Hg.
      injection Hg as <-. now right.
    + rewrite rooms_get_set_other in Hg' by exact Hne. left. congruence.
  - left. destruct (string_dec rid (GameRoom.id room0)) as [-> | Hne].
    + rewrite rooms_get_delete_same in Hg'. discriminate Hg'.
    + rewrite rooms_get_delete_other in Hg' by exact Hne. congruence.
Qed.







(** ** One entry per player and round *)















(** ** One socket in two rooms *)




Lemma two_created_state_reachable : reachable two_created_state.
Proof. apply (scenario_reachable two_created_trace). vm_compute. reflexivity. Qed.



(** * Further properties of the handlers and helpers *)

Lemma results_state_reachable : reachable results_state.
Proof. apply (scenario_reachable results_trace). vm_compute. reflexivity. Qed.

Lemma writing_state_reachable : reachable writing_state.
Proof. apply (scenario_reachable writing_trace). vm_compute. reflexivity. Qed.

(** ** Writing a room back *)

Lemma rooms_set_fresh room rs :
  rooms_get (GameRoom.id room) rs = None -> rooms_set room rs = (rs ++ [room])%list.
Proof.
  unfold rooms_get. induction rs as [|x rest IH]; simpl; [reflexivity|].
  destruct (GameRoom.id x =? GameRoom.id room)%string; [discriminate|].
  intro H. now rewrite IH.
Qed.

Lemma rooms_set_split room room' rs :
  store_ok rs ->
  In room rs ->
  GameRoom.id room' = GameRoom.id room ->
  exists before after,
    rs = (before ++ room :: after)%list /\
    rooms_set room' rs = (before ++ room' :: after)%list.
Proof.
  unfold store_ok. intros Hok Hin Hid.
  induction rs as [|x rest IH]; [destruct Hin|].
  simpl in Hok. inversion Hok as [|? ? Hn Hr]; subst. simpl.
  destruct (GameRoom.id x =? GameRoom.id room')%string eqn:E.
  - apply String.eqb_eq in E. destruct Hin as [-> | Hin].
    + exists [], rest. split; reflexivity.
    + exfalso. apply Hn. rewrite E, Hid. now apply in_map.
  - apply String.eqb_neq in E. destruct Hin as [-> | Hin]; [congruence|].
    destruct (IH Hr Hin) as (before & after & -> & ->).
    exists (x :: before), after. split; reflexivity.
Qed.

Lemma rooms_set_same room rs :
  store_ok rs -> In room rs -> rooms_set room rs = rs.
Proof.
  intros Hok Hin.
  destruct (rooms_set_split room room rs Hok Hin eq_refl) as (b & a & E1 & E2).
  congruence.
Qed.

Lemma rooms_set_set r1 r2 rs :
  GameRoom.id r1 = GameRoom.id r2 ->
  rooms_set r2 (rooms_set r1 rs) = rooms_set r2 rs.
Proof.
  intro Hid. induction rs as [|x rest IH]; simpl.
  - rewrite Hid, String.eqb_refl. reflexivity.
  - destruct (GameRoom.id x =? GameRoom.id r1)%string eqn:E; simpl.
    + rewrite <- Hid, E, String.eqb_refl. reflexivity.
    + rewrite <- Hid, E. f_equal. exact IH.
Qed.

Lemma findPlayerRoom_set sid room player room' player' rs :
  store_ok rs ->
  findPlayerRoom sid rs = Some (room, player) ->
  GameRoom.id room' = GameRoom.id room ->
  find_player sid (GameRoom.players room') = Some player' ->
  findPlayerRoom sid (rooms_set room' rs) = Some (room', player').
Proof.
  unfold store_ok, find_player. intros Hok Hf Hid Hp.
  induction rs as [|x rest IH]; [discriminate Hf|].
  simpl in Hok. inversion Hok as [|? ? Hn Hr]; subst. simpl in Hf |- *.
  destruct (find _ (GameRoom.players x)) as [p|] eqn:Ex.
  - injection Hf as -> ->. rewrite Hid, String.eqb_refl. simpl. now rewrite Hp.
  - destruct (findPlayerRoom_Some _ _ _ _ Hf) as [Hin _].
    destruct (GameRoom.id x =? GameRoom.id room')%string eqn:E.
    + apply String.eqb_eq in E. exfalso. apply Hn. rewrite E, Hid. now apply in_map.
    + simpl. rewrite Ex. now apply IH.
Qed.

Lemma findRoomByCode_set c room room' rs :
  store_ok rs ->
  findRoomByCode c rs = Some room ->
  GameRoom.id room' = GameRoom.id room ->
  GameRoom.code room' = GameRoom.code room ->
  findRoomByCode c (rooms_set room' rs) = Some room'.
Proof.
  unfold store_ok, findRoomByCode. intros Hok Hf Hid Hc.
  induction rs as [|x rest IH]; [discriminate Hf|].
  simpl in Hok. inversion Hok as [|? ? Hn Hr]; subst. simpl in Hf |- *.
  destruct (GameRoom.code x =? c)%string eqn:Ex.
  - injection Hf as ->. rewrite Hid, String.eqb_refl. simpl.
    rewrite Hc. now rewrite Ex.
  - pose proof (find_some _ _ Hf) as [Hin _].
    destruct (GameRoom.id x =? GameRoom.id room')%string eqn:E.
    + apply String.eqb_eq in E. exfalso. apply Hn. rewrite E, Hid. now apply in_map.
    + simpl. rewrite Ex. now apply IH.
Qed.

Lemma room_step_code sid e room room' :
  room_step sid e room room' -> GameRoom.code room' = GameRoom.code room.
Proof.
  destruct 1; try reflexivity.
  destruct maxRounds as [n|]; [destruct (n =? 0)|]; reflexivity.
Qed.

(** ** Room codes *)

Lemma findRoomByCode_None c rs :
  findRoomByCode c rs = None <-> ~ In c (map GameRoom.code rs).
Proof.
  unfold findRoomByCode. induction rs as [|x rest IH]; simpl.
  - split; [intros _ [] | reflexivity].
  - destruct (GameRoom.code x =? c)%string eqn:E.
    + apply String.eqb_eq in E. split; [discriminate | intro H; exfalso; apply H; now left].
    + apply String.eqb_neq in E. rewrite IH. split.
      * intros H [H1 | H1]; [congruence | now apply H].
      * intros H H1. apply H. now right.
Qed.

Lemma generateRoomCode_free draws rs c :
  generateRoomCode draws rs = Some c -> findRoomByCode c rs = None.
Proof.
  induction draws as [|d rest IH]; simpl; [discriminate|].
  destruct (findRoomByCode (code_of_draw d) rs) eqn:E; [exact IH|].
  intro H. injection H as <-. exact E.
Qed.

(** X1: [generateRoomCode] returns the code of the first draw that no room of
    the map has, and returns it exactly then; in particular the code it
    returns is not in use. *)
Theorem generateRoomCode_first_free draws rs c :
  generateRoomCode draws rs = Some c <->
  exists taken d more,
    draws = (taken ++ d :: more)%list /\
    c = code_of_draw d /\
    findRoomByCode c rs = None /\
    forall t, In t taken -> findRoomByCode (code_of_draw t) rs <> None.
Proof.
  induction draws as [|d0 rest IH]; simpl.
  - split; [discriminate|]. intros (taken & d & more & H & _).
    destruct taken; discriminate H.
  - destruct (findRoomByCode (code_of_draw d0) rs) as [r|] eqn:E.
    + rewrite IH. split.
      * intros (taken & d & more & -> & Hc & Hf & Ht).
        exists (d0 :: taken), d, more. repeat split; auto.
        all: intros t [<- | Hin]; [congruence | now apply Ht].
      * intros (taken & d & more & Hd & Hc & Hf & Ht).
        destruct taken as [|t0 taken]; simpl in Hd; injection Hd as -> ->.
        -- congruence.
        -- exists taken, d, more. repeat split; auto.
           all: intros t Hin; apply Ht; now right.
    + split.
      * intro H. injection H as <-. exists [], d0, rest. repeat split; auto.
        all: intros t [].
      * intros (taken & d & more & Hd & Hc & Hf & Ht).
        destruct taken as [|t0 taken]; simpl in Hd; injection Hd as -> ->.
        -- now subst c.
        -- exfalso. apply (Ht t0); [now left | exact E].
Qed.

Lemma charAt_upper a :
  (a < 26)%nat ->
  exists c, charAt characters a = String c EmptyString /\ is_upper c = true.
Proof.
  intro H.
  do 26 (destruct a as [|a]; [eexists; split; reflexivity|]).
  lia.
Qed.

Lemma code_of_draw_shape d :
  valid_draw d ->
  String.length (code_of_draw d) = 4%nat /\ all_upper (code_of_draw d) = true.
Proof.
  destruct d as [[[a b] c] e]. intros (Ha & Hb & Hc & He).
  destruct (charAt_upper a Ha) as (ca & Ea & Ua).
  destruct (charAt_upper b Hb) as (cb & Eb & Ub).
  destruct (charAt_upper c Hc) as (cc & Ec & Uc).
  destruct (charAt_upper e He) as (ce & Ee & Ue).
  unfold code_of_draw. rewrite Ea, Eb, Ec, Ee. simpl.
  rewrite Ua, Ub, Uc, Ue. split; reflexivity.
Qed.

(** X2: when every draw is an index into the 26 letters, as
    [Math.floor(Math.random() * characters.length)] is, the code that
    [generateRoomCode] returns has four characters, all of them capital
    letters. *)
Theorem generateRoomCode_shape draws rs c :
  Forall valid_draw draws ->
  generateRoomCode draws rs = Some c ->
  String.length c = 4%nat /\ all_upper c = true.
Proof.
  intros Hv. induction Hv as [|d rest Hd _ IH]; simpl; [discriminate|].
  destruct (findRoomByCode (code_of_draw d) rs); [exact IH|].
  intro H. injection H as <-. now apply code_of_draw_shape.
Qed.

Lemma generateRoomCode_shape_witness :
  generateRoomCode [draw_ABCD; draw_WXYZ] (rooms lobby_state) = Some "WXYZ" /\
  String.length "WXYZ" = 4%nat /\ all_upper "WXYZ" = true.
Proof.
  split; [reflexivity|].
  apply (generateRoomCode_shape [draw_ABCD; draw_WXYZ] (rooms lobby_state)).
  - repeat constructor.
  - reflexivity.
Defined.

Lemma NoDup_map_filter {A B} (f : A -> B) (g : A -> bool) (l : list A) :
  NoDup (map f l) -> NoDup (map f (filter g l)).
Proof.
  induction l as [|x rest IH]; simpl; [auto|].
  intro H. inversion H as [|? ? Hn Hr]; subst.
  destruct (g x); simpl; [|now apply IH].
  constructor; [|now apply IH].
  intro Hin. apply Hn. apply in_map_iff in Hin. destruct Hin as [y [Hy Hin]].
  apply in_map_iff. exists y. split; [exact Hy|]. now apply filter_In in Hin.
Qed.

Lemma store_change_codes_ok st sid e rs' :
  store_ok (rooms st) ->
  codes_ok (rooms st) ->
  admissible st sid e = true ->
  store_change sid e (rooms st) rs' ->
  codes_ok rs'.
Proof.
  unfold codes_ok. intros Hok Hc Ha Hch.
  destruct Hch as [| nickname profilePic draws uuid now roomCode -> Hg
                   | room room' Ht Hs | room _ _ _].
  - exact Hc.
  - simpl in Ha. apply andb_true_iff in Ha. destruct Ha as [_ Ha].
    destruct (rooms_get uuid (rooms st)) eqn:Eg; [discriminate|].
    rewrite rooms_set_fresh by exact Eg. rewrite map_app. simpl.
    apply NoDup_app; [exact Hc | repeat constructor; intros [] |].
    intros k Hk [<- | []]. revert Hk. apply findRoomByCode_None.
    exact (generateRoomCode_free _ _ _ Hg).
  - destruct (rooms_set_split room room' (rooms st) Hok (target_room_In _ _ _ _ Ht)
                (room_step_id _ _ _ _ Hs)) as (b & a & E1 & E2).
    rewrite E2. rewrite E1 in Hc. rewrite map_app in *. simpl in *.
    now rewrite (room_step_code _ _ _ _ Hs).
  - now apply NoDup_map_filter.
Qed.

Lemma reachable_codes_ok st : reachable st -> codes_ok (rooms st).
Proof.
  induction 1 as [|st sid e st' out Hr IH Ha Hh].
  - constructor.
  - eapply store_change_codes_ok; eauto using reachable_store_ok, handle_store_change.
Qed.

(** X3: in every reachable state no two rooms of the map have the same code:
    create-room takes its code from [generateRoomCode], which retries a code
    that is in use, and no handler changes a room's code. *)
Theorem room_codes_unique st :
  reachable st -> NoDup (map GameRoom.code (rooms st)).
Proof. exact (reachable_codes_ok st). Qed.

Lemma room_codes_unique_witness :
  NoDup (map GameRoom.code (rooms two_rooms_state)) /\
  map GameRoom.code (rooms two_rooms_state) = ["ABCD"; "WXYZ"].
Proof.
  split; [|reflexivity].
  exact (room_codes_unique two_rooms_state two_rooms_state_reachable).
Defined.

Lemma find_by_unique_key (f : GameRoom.t -> string) room rs :
  NoDup (map f rs) -> In room rs ->
  find (fun r => f r =? f room)%string rs = Some room.
Proof.
  induction rs as [|x rest IH]; simpl; [intros _ []|].
  intros H Hin. inversion H as [|? ? Hn Hr]; subst.
  destruct Hin as [-> | Hin].
  - now rewrite String.eqb_refl.
  - destruct (f x =? f room)%string eqn:E; [|now apply IH].
    apply String.eqb_eq in E. exfalso. apply Hn. rewrite E. now apply in_map.
Qed.

(** X4: in every reachable state a room of the map is what the lookups by its
    own id and by its own code return: [rooms.get(room.id)] and
    [findRoomByCode(room.code)] both give the room itself. *)
Theorem lookup_returns_room st room :
  reachable st ->
  In room (rooms st) ->
  rooms_get (GameRoom.id room) (rooms st) = Some room /\
  findRoomByCode (GameRoom.code room) (rooms st) = Some room.
Proof.
  intros Hr Hin. split.
  - apply (find_by_unique_key GameRoom.id); [exact (reachable_store_ok st Hr) | exact Hin].
  - apply (find_by_unique_key GameRoom.code); [exact (reachable_codes_ok st Hr) | exact Hin].
Qed.

Lemma lookup_returns_room_witness :
  exists room,
    nth_error (rooms two_rooms_state) 1 = Some room /\
    rooms_get "room-2" (rooms two_rooms_state) = Some room /\
    findRoomByCode "WXYZ" (rooms two_rooms_state) = Some room.
Proof.
  eexists. split; [reflexivity|].
  match goal with
  | |- _ = Some ?r /\ _ =>
      exact (lookup_returns_room two_rooms_state r two_rooms_state_reachable
               (or_intror (or_introl eq_refl)))
  end.
Defined.

(** ** The player lookup *)

Lemma find_player_None k ps :
  find_player k ps = None <-> ~ In k (map GamePlayer.id ps).
Proof.
  unfold find_player. induction ps as [|p rest IH]; simpl.
  - split; [intros _ [] | reflexivity].
  - destruct (GamePlayer.id p =? k)%string eqn:E.
    + apply String.eqb_eq in E. split; [discriminate | intro H; exfalso; apply H; now left].
    + apply String.eqb_neq in E. rewrite IH. split.
      * intros H [H1 | H1]; [congruence | now apply H].
      * intros H H1. apply H. now right.
Qed.

(** X5: [findPlayerRoom(id)] finds nothing exactly when no room lists a
    player with that id; otherwise it returns the first room of the map, in
    insertion order, that lists one, with the first such player of that room. *)
Theorem findPlayerRoom_first sid rs :
  (findPlayerRoom sid rs = None <-> forall room, In room rs -> ~ member sid room) /\
  (forall room player,
      findPlayerRoom sid rs = Some (room, player) ->
      find_player sid (GameRoom.players room) = Some player /\
      In player (GameRoom.players room) /\
      GamePlayer.id player = sid /\
      exists before after,
        rs = (before ++ room :: after)%list /\
        forall r, In r before -> ~ member sid r).
Proof.
  unfold member. induction rs as [|x rest [IHn IHs]]; simpl.
  - split; [split; [intros _ r [] | reflexivity] | discriminate].
  - fold (find_player sid (GameRoom.players x)).
    destruct (find_player sid (GameRoom.players x)) as [p|] eqn:E.
    + split.
      * split; [discriminate|]. intro H. exfalso.
        apply (H x); [now left|].
        destruct (find_player_Some _ _ _ E) as [Hin <-]. now apply in_map.
      * intros room player H. injection H as <- <-.
        destruct (find_player_Some _ _ _ E) as [Hin Hid].
        repeat split; auto. exists [], rest. split; [reflexivity | intros r []].
    + apply find_player_None in E. split.
      * rewrite IHn. split.
        -- intros H r [<- | Hin]; [exact E | now apply H].
        -- intros H r Hin. apply H. now right.
      * intros room player H. destruct (IHs room player H) as (Hf & Hin & Hid & b & a & -> & Hb).
        repeat split; auto. exists (x :: b), a. split; [reflexivity|].
        intros r [<- | Hr]; [exact E | now apply Hb].
Qed.

(** ** Refusals *)

(** X6: join-room is refused, with one error to the caller and the state
    unchanged, when no room has the code ("Room not found"), when the room is
    locked ("Room is locked", whatever its phase), and when the room is
    unlocked but not in the lobby ("Game has already started"). *)
Theorem join_room_refused st sid roomCode nickname profilePic :
  (findRoomByCode roomCode (rooms st) = None ->
   handle st sid (join_room roomCode nickname profilePic) =
     Some (st, [(socket_emit sid, error "Room not found")])) /\
  (forall room,
      findRoomByCode roomCode (rooms st) = Some room ->
      GameRoom.locked room = true ->
      handle st sid (join_room roomCode nickname profilePic) =
        Some (st, [(socket_emit sid, error "Room is locked")])) /\
  (forall room,
      findRoomByCode roomCode (rooms st) = Some room ->
      GameRoom.locked room = false ->
      GameRoom.gameState room <> lobby ->
      handle st sid (join_room roomCode nickname profilePic) =
        Some (st, [(socket_emit sid, error "Game has already started")])).
Proof.
  simpl. unfold on_join_room, reply_error. repeat split.
  - intros ->. reflexivity.
  - intros room -> ->. reflexivity.
  - intros room -> -> Hg. apply GameState_eqb_neq in Hg. rewrite Hg. reflexivity.
Qed.

(** X8: an event whose handler starts with the player lookup, coming from a
    socket that no room lists, emits nothing and leaves every room as it is;
    except for disconnect, which drops the socket from the transport, the whole
    state is unchanged. *)
Theorem event_outside_rooms st sid e :
  uses_player_lookup e = true ->
  findPlayerRoom sid (rooms st) = None ->
  exists st',
    handle st sid e = Some (st', []) /\
    rooms st' = rooms st /\
    (e <> disconnect -> st' = st).
Proof.
  intros Hu Hf.
  destruct e; try discriminate Hu; simpl;
    unfold on_leave_room, on_toggle_ready, on_start_game, on_submit_sentence,
      on_submit_drawing, on_update_room_settings, on_kick_player, on_toggle_room_lock,
      on_start_presentation, on_show_result, on_end_presentation, on_reset_game,
      on_disconnect;
    rewrite Hf; eexists; (split; [reflexivity|]); split; try reflexivity;
    intro H; try reflexivity; congruence.
Qed.

Lemma event_outside_rooms_witness :
  exists st',
    handle lobby_state "carol" (submit_sentence "hello") = Some (st', []) /\
    rooms st' = rooms lobby_state /\
    (submit_sentence "hello" <> disconnect -> st' = lobby_state).
Proof.
  apply (event_outside_rooms lobby_state "carol" (submit_sentence "hello")); reflexivity.
Defined.

(** X9: every host-only event -- start-game, update-room-settings,
    kick-player, toggle-room-lock, start-presentation, show-result,
    end-presentation, reset-game -- from a player that the lookup finds
    without the host flag is answered by one error to the caller and changes
    nothing. *)
Theorem host_only_refused st sid e room player :
  host_only e = true ->
  findPlayerRoom sid (rooms st) = Some (room, player) ->
  GamePlayer.isHost player = false ->
  exists msg, handle st sid e = Some (st, [(socket_emit sid, error msg)]).
Proof.
  intros He Hf Hh.
  destruct e; try discriminate He; simpl;
    unfold on_start_game, on_update_room_settings, on_kick_player, on_toggle_room_lock,
      on_start_presentation, on_show_result, on_end_presentation, on_reset_game,
      reply_error;
    rewrite Hf, Hh; simpl; eexists; reflexivity.
Qed.

Lemma host_only_refused_witness :
  exists msg,
    handle results_state "bob" reset_game =
      Some (results_state, [(socket_emit "bob", error msg)]).
Proof.
  eapply (host_only_refused results_state "bob" reset_game); reflexivity.
Defined.

Ltac split_handler H :=
  repeat match type of H with
         | context [match ?x with _ => _ end] => destruct x eqn:?
         end.

(** X10: a handler that emits an error emits nothing else, emits it to the
    caller, and has changed nothing: no event both fails and mutates. *)
Theorem error_leaves_state st sid e st' out :
  handle st sid e = Some (st', out) ->
  existsb (fun em => is_error (snd em)) out = true ->
  st' = st /\ exists msg, out = [(socket_emit sid, error msg)].
Proof.
  intros H Herr.
  destruct e; simpl in H;
    unfold on_connection, on_create_room, on_join_room, on_leave_room, on_disconnect,
      on_toggle_ready, on_start_game, on_submit_sentence, on_submit_drawing,
      on_update_room_settings, on_kick_player, on_toggle_room_lock,
      on_start_presentation, on_show_result, on_end_presentation, on_reset_game,
      on_get_active_rooms, depart, reply_error in H;
    cbv zeta in H; split_handler H;
    try discriminate H; injection H as <- <-;
    try discriminate Herr;
    (split; [reflexivity | eexists; reflexivity]).
Qed.

Lemma error_leaves_state_witness :
  exists st' out,
    handle lobby_state "bob" (submit_drawing "early") = Some (st', out) /\
    st' = lobby_state /\
    exists msg, out = [(socket_emit "bob", error msg)].
Proof.
  do 2 eexists. split; [reflexivity|].
  apply (error_leaves_state lobby_state "bob" (submit_drawing "early")); reflexivity.
Defined.

(** ** Creating a room and joining it *)

Lemma findRoomByCode_last c room rs :
  findRoomByCode c rs = None ->
  GameRoom.code room = c ->
  findRoomByCode c (rs ++ [room]) = Some room.
Proof.
  unfold findRoomByCode. intros Hn Hc. induction rs as [|x rest IH]; simpl in *.
  - subst c. now rewrite String.eqb_refl.
  - destruct (GameRoom.code x =? c)%string; [discriminate | now apply IH].
Qed.

(** X7: the code that create-room reports opens the room it created: after
    a create-room with a new uuid, a join-room with the code of the
    [room-created] event, from any socket, succeeds and makes the room's
    players the creator, host and not ready, followed by the joiner, neither
    host nor ready. *)
Theorem create_then_join st creator nickname profilePic draws uuid now st1 out1
        joiner nickname' profilePic' :
  admissible st creator (create_room nickname profilePic draws uuid now) = true ->
  handle st creator (create_room nickname profilePic draws uuid now) = Some (st1, out1) ->
  exists created st2 out2 joined,
    In (socket_emit creator, room_created created) out1 /\
    GameRoom.id created = uuid /\
    handle st1 joiner (join_room (GameRoom.code created) nickname' profilePic')
      = Some (st2, out2) /\
    rooms_get uuid (rooms st2) = Some joined /\
    GameRoom.players joined =
      [GamePlayer.mk creator nickname profilePic true false;
       GamePlayer.mk joiner nickname' profilePic' false false] /\
    GameRoom.gameState joined = lobby /\
    In (socket_emit joiner, room_joined joined) out2.
Proof.
  intros Ha Hh. simpl in Ha, Hh. unfold on_create_room in Hh.
  apply andb_true_iff in Ha. destruct Ha as [_ Ha].
  destruct (rooms_get uuid (rooms st)) eqn:Eg; [discriminate|].
  destruct (generateRoomCode draws (rooms st)) as [roomCode|] eqn:Ec; [|discriminate].
  injection Hh as <- <-.
  assert (Hfree : findRoomByCode roomCode (rooms st) = None).
  { exact (generateRoomCode_free _ _ _ Ec). }
  set (created := GameRoom.mk uuid roomCode
                    [GamePlayer.mk creator nickname profilePic true false]
                    lobby 0 3 now false [] [] default_presentation).
  assert (Hfind : findRoomByCode roomCode (rooms_set created (rooms st)) = Some created).
  { rewrite rooms_set_fresh by exact Eg. now apply findRoomByCode_last. }
  exists created. do 3 eexists. split; [now left|]. split; [reflexivity|].
  split.
  { simpl. unfold on_join_room. cbn [rooms]. rewrite Hfind. simpl. reflexivity. }
  simpl.
  split; [exact (rooms_get_set_same
                   (GameRoom.with_players
                      (GameRoom.players created
                       ++ [GamePlayer.mk joiner nickname' profilePic' false false])%list
                      created) _)|].
  split; [reflexivity|]. split; [reflexivity|]. now left.
Qed.

Lemma create_then_join_witness :
  exists created st1 out1 st2 out2 joined,
    handle lobby_state "bob" (create_room "Bob" "b.png" [draw_ABCD; draw_WXYZ] "room-2" 7)
      = Some (st1, out1) /\
    In (socket_emit "bob", room_created created) out1 /\
    GameRoom.code created = "WXYZ" /\
    handle st1 "alice" (join_room "WXYZ" "Alice" "a.png") = Some (st2, out2) /\
    rooms_get "room-2" (rooms st2) = Some joined /\
    map GamePlayer.id (GameRoom.players joined) = ["bob"; "alice"].
Proof.
  destruct (create_then_join lobby_state "bob" "Bob" "b.png" [draw_ABCD; draw_WXYZ]
              "room-2" 7 _ _ "alice" "Alice" "a.png" eq_refl eq_refl)
    as (created & st2 & out2 & joined & Hc & Hid & Hj & Hg & Hp & _ & _).
  exists created. do 2 eexists. exists st2, out2, joined.
  split; [reflexivity|]. split; [exact Hc|].
  assert (Hcode : GameRoom.code created = "WXYZ").
  { simpl in Hc. destruct Hc as [Hc | [Hc | []]]; [|discriminate Hc].
    injection Hc as <-. reflexivity. }
  split; [exact Hcode|]. rewrite <- Hcode.
  split; [exact Hj|]. split; [exact Hg|]. rewrite Hp. reflexivity.
Defined.

(** ** Starting the game: the three outcomes *)

Lemma someone_not_ready sid ps host :
  find_player sid ps = Some host ->
  (exists p, In p ps /\ GamePlayer.id p <> sid /\ GamePlayer.isReady p = false) ->
  forallb (fun p => GamePlayer.isReady p || (GamePlayer.id p =? GamePlayer.id host)%string) ps
  = false.
Proof.
  intros Hf (p & Hin & Hid & Hr). apply find_player_Some in Hf. destruct Hf as [_ Hh].
  destruct (forallb _ ps) eqn:E; [|reflexivity].
  rewrite forallb_forall in E. specialize (E p Hin). rewrite Hr, Hh in E. simpl in E.
  apply String.eqb_eq in E. contradiction.
Qed.

(** X11: start-game from the host of a room, in any phase. If some player
    with another id is not ready, the answer is "Not all players are ready".
    If all of them are ready but the room has fewer than two players, it is
    "Need at least 2 players to start". Both leave the state unchanged.
    Otherwise the room goes to the writing phase, round 1, and [game-started]
    is sent to the room and the listing to everybody. *)
Theorem start_game_outcomes st sid room host :
  findPlayerRoom sid (rooms st) = Some (room, host) ->
  GamePlayer.isHost host = true ->
  ((exists p, In p (GameRoom.players room) /\ GamePlayer.id p <> sid /\
              GamePlayer.isReady p = false) ->
   handle st sid start_game =
     Some (st, [(socket_emit sid, error "Not all players are ready")])) /\
  ((forall p, In p (GameRoom.players room) -> GamePlayer.id p <> sid ->
              GamePlayer.isReady p = true) ->
   (length (GameRoom.players room) < 2)%nat ->
   handle st sid start_game =
     Some (st, [(socket_emit sid, error "Need at least 2 players to start")])) /\
  ((forall p, In p (GameRoom.players room) -> GamePlayer.id p <> sid ->
              GamePlayer.isReady p = true) ->
   (2 <= length (GameRoom.players room))%nat ->
   let started := GameRoom.with_currentRound 1 (GameRoom.with_gameState writing room) in
   handle st sid start_game =
     Some (mkState (rooms_set started (rooms st)) (sockets st),
           [(io_to (GameRoom.id room), game_started started);
            emitActiveRoomsToAll (rooms_set started (rooms st))])).
Proof.
  intros Hf Hh. destruct (findPlayerRoom_Some _ _ _ _ Hf) as [_ Hp].
  simpl. unfold on_start_game, reply_error. rewrite Hf, Hh. simpl.
  repeat split.
  - intro Hex. now rewrite (someone_not_ready sid _ host Hp Hex).
  - intros Hall Hl. rewrite (all_others_ready sid _ host Hp Hall). simpl.
    apply Nat.ltb_lt in Hl. now rewrite Hl.
  - intros Hall Hl. rewrite (all_others_ready sid _ host Hp Hall). simpl.
    apply Nat.ltb_ge in Hl. now rewrite Hl.
Qed.

Lemma start_game_outcomes_witness :
  handle alone_state "alice" start_game =
    Some (alone_state, [(socket_emit "alice", error "Need at least 2 players to start")]).
Proof.
  edestruct (start_game_outcomes alone_state "alice") as (_ & Halone & _).
  - reflexivity.
  - reflexivity.
  - apply Halone.
    + intros p [<- | []] Hid. exfalso. apply Hid. reflexivity.
    + simpl. lia.
Defined.

(** ** Submitting a sentence *)

(** X12: submit-sentence from a member of a room in the writing phase
    appends the sentence tagged with the current round and sends
    [room-updated] to the room. When the sentences tagged with the current
    round are then as many as the players, the room goes to the drawing phase
    and one [phase-changed] precedes the update; otherwise the phase stays and
    no [phase-changed] is sent. *)
Theorem submit_sentence_effect st sid text room player :
  findPlayerRoom sid (rooms st) = Some (room, player) ->
  GameRoom.gameState room = writing ->
  let added := add_sentence sid text room in
  (sentence_count added = length (GameRoom.players room) ->
   handle st sid (submit_sentence text) =
     Some (mkState (rooms_set (GameRoom.with_gameState drawing added) (rooms st)) (sockets st),
           [(io_to (GameRoom.id room), phase_changed drawing);
            (io_to (GameRoom.id room),
             room_updated (GameRoom.with_gameState drawing added))])) /\
  (sentence_count added <> length (GameRoom.players room) ->
   handle st sid (submit_sentence text) =
     Some (mkState (rooms_set added (rooms st)) (sockets st),
           [(io_to (GameRoom.id room), room_updated added)])).
Proof.
  intros Hf Hg added. simpl. unfold on_submit_sentence. rewrite Hf, Hg. simpl.
  fold (add_sentence sid text room). fold added.
  change (length (filter _ _)) with (sentence_count added).
  split; intro Hc.
  - now rewrite (proj2 (Nat.eqb_eq _ _) Hc).
  - now rewrite (proj2 (Nat.eqb_neq _ _) Hc).
Qed.

Lemma submit_sentence_effect_witness :
  exists st' room',
    handle writing_state "alice" (submit_sentence "one") =
      Some (st', [(io_to "room-1", room_updated room')]) /\
    GameRoom.gameState room' = writing /\
    map Sentence.text (GameRoom.sentences room') = ["one"].
Proof.
  edestruct (submit_sentence_effect writing_state "alice" "one") as (_ & Hwait).
  - reflexivity.
  - reflexivity.
  - do 2 eexists. split; [apply Hwait; vm_compute; discriminate|].
    split; reflexivity.
Defined.

(** X13: a submission outside its phase is refused and stores nothing:
    submit-sentence when the room is not in the writing phase, submit-drawing
    when it is not in the drawing phase. *)
Theorem submission_outside_phase st sid payload room player :
  findPlayerRoom sid (rooms st) = Some (room, player) ->
  (GameRoom.gameState room <> writing ->
   handle st sid (submit_sentence payload) =
     Some (st, [(socket_emit sid, error "Cannot submit sentence in current game state")])) /\
  (GameRoom.gameState room <> drawing ->
   handle st sid (submit_drawing payload) =
     Some (st, [(socket_emit sid, error "Cannot submit drawing in current game state")])).
Proof.
  intro Hf. simpl. unfold on_submit_sentence, on_submit_drawing, reply_error. rewrite Hf.
  split; intro Hg; apply GameState_eqb_neq in Hg; now rewrite Hg.
Qed.

Lemma submission_outside_phase_witness :
  handle drawing_state "bob" (submit_sentence "late") =
    Some (drawing_state,
          [(socket_emit "bob", error "Cannot submit sentence in current game state")]).
Proof.
  edestruct (submission_outside_phase drawing_state "bob" "late") as (Hs & _).
  - reflexivity.
  - apply Hs. discriminate.
Defined.

(** ** What is stored stays stored *)

Lemma nothing_appended {A} (l : list A) :
  exists more, l = (l ++ more)%list /\ (length more <= 1)%nat.
Proof. exists []. rewrite app_nil_r. split; [reflexivity | simpl; lia]. Qed.

Lemma one_appended {A} (l : list A) (x : A) :
  exists more, (l ++ [x])%list = (l ++ more)%list /\ (length more <= 1)%nat.
Proof. exists [x]. split; [reflexivity | simpl; lia]. Qed.

Lemma room_step_append sid e room room' :
  room_step sid e room room' ->
  e <> reset_game ->
  (exists ss, GameRoom.sentences room' = (GameRoom.sentences room ++ ss)%list /\
              (length ss <= 1)%nat) /\
  (exists ds, GameRoom.drawings room' = (GameRoom.drawings room ++ ds)%list /\
              (length ds <= 1)%nat).
Proof.
  intros Hs Hne.
  destruct Hs; simpl;
    try (split; first [apply nothing_appended | apply one_appended]).
  - destruct maxRounds as [n|]; [destruct (n =? 0)|]; simpl;
      split; apply nothing_appended.
  - congruence.
Qed.

(** X14: sentences and drawings are append-only: over one event other than
    reset-game, a room that stays in the map keeps every sentence and every
    drawing it had, in place and unchanged, with at most one new entry at the
    end of each collection. *)
Theorem entries_append_only st sid e st' out rid room room' :
  reachable st ->
  admissible st sid e = true ->
  handle st sid e = Some (st', out) ->
  rooms_get rid (rooms st) = Some room ->
  rooms_get rid (rooms st') = Some room' ->
  e <> reset_game ->
  (exists ss, GameRoom.sentences room' = (GameRoom.sentences room ++ ss)%list /\
              (length ss <= 1)%nat) /\
  (exists ds, GameRoom.drawings room' = (GameRoom.drawings room ++ ds)%list /\
              (length ds <= 1)%nat).
Proof.
  intros Hr Ha Hh Hg Hg' Hne.
  destruct (one_step_room _ _ _ _ _ _ _ _ Hr Ha Hh Hg Hg') as [-> | Hs].
  - split; apply nothing_appended.
  - exact (room_step_append _ _ _ _ Hs Hne).
Qed.

Lemma entries_append_only_witness :
  exists st' out room room',
    handle drawing_state "alice" start_game = Some (st', out) /\
    rooms_get "room-1" (rooms drawing_state) = Some room /\
    rooms_get "room-1" (rooms st') = Some room' /\
    GameRoom.gameState room' = writing /\
    exists ss, GameRoom.sentences room' = (GameRoom.sentences room ++ ss)%list /\
               (length ss <= 1)%nat.
Proof.
  do 4 eexists. split; [reflexivity|]. split; [reflexivity|].
  split; [reflexivity|]. split; [reflexivity|].
  eapply (entries_append_only drawing_state "alice" start_game _ _ "room-1").
  - exact drawing_state_reachable.
  - reflexivity.
  - reflexivity.
  - reflexivity.
  - reflexivity.
  - discriminate.
Defined.

(** ** Rounds and the lobby *)

Lemma room_step_round_shape sid e room room' :
  round_shape room -> room_step sid e room room' -> round_shape room'.
Proof.
  unfold round_shape, pristine. intros (Hl & Hr & Hm) Hs.
  destruct Hs; simpl;
    try (repeat split; intros; try tauto; try congruence; try lia;
         try (apply Hl; congruence); try (apply Hr; congruence); fail).
  - (* next round *)
    repeat split; try congruence. intros _.
    assert (1 <= GameRoom.currentRound room) by (apply Hr; congruence). lia.
  - (* settings *)
    destruct maxRounds as [n|]; [destruct (n =? 0) eqn:En|]; simpl; auto.
    apply Z.eqb_neq in En. split; [exact Hl|]. split; [exact Hr | exact En].
  - (* show-result *)
    assert (Hnl : GameRoom.gameState room <> lobby).
    { intro E. destruct (Hl E) as (_ & _ & _ & Hp). rewrite Hp in *. discriminate. }
    split; [intro E; contradiction|]. split; [exact Hr | exact Hm].
Qed.

(** X15: in every reachable state a room in the lobby is at round 0 with no
    sentence, no drawing and the presentation off at index 0; a room in any
    other phase is at round 1 or more; and [maxRounds] is never 0. *)
Theorem lobby_is_pristine st room :
  reachable st ->
  In room (rooms st) ->
  (GameRoom.gameState room = lobby ->
   GameRoom.currentRound room = 0 /\
   GameRoom.sentences room = [] /\
   GameRoom.drawings room = [] /\
   GameRoom.presentationMode room = default_presentation) /\
  (GameRoom.gameState room <> lobby -> 1 <= GameRoom.currentRound room) /\
  GameRoom.maxRounds room <> 0.
Proof.
  intros Hr. revert room.
  apply (reachable_invariant round_shape); [| exact room_step_round_shape | exact Hr].
  intros. unfold round_shape, pristine. simpl. repeat split; congruence.
Qed.

Lemma lobby_is_pristine_witness :
  exists room,
    In room (rooms results_state) /\
    GameRoom.gameState room = results /\
    1 <= GameRoom.currentRound room /\
    GameRoom.maxRounds room <> 0.
Proof.
  eexists. split; [left; reflexivity|]. split; [reflexivity|].
  match goal with
  | |- 1 <= GameRoom.currentRound ?r /\ _ =>
      destruct (lobby_is_pristine results_state r results_state_reachable
                  (or_introl eq_refl)) as (_ & Hround & Hmax)
  end.
  split; [apply Hround; discriminate | exact Hmax].
Defined.

(** ** Toggling ready *)

Lemma find_player_update k f ps p :
  (forall q, GamePlayer.id (f q) = GamePlayer.id q) ->
  find_player k ps = Some p ->
  find_player k (update_player k f ps) = Some (f p).
Proof.
  unfold find_player. intros Hf. induction ps as [|q rest IH]; simpl; [discriminate|].
  destruct (GamePlayer.id q =? k)%string eqn:E; simpl.
  - intro H. injection H as <-. now rewrite Hf, E.
  - intro H. rewrite E. now apply IH.
Qed.

Lemma update_player_twice k f ps :
  (forall q, GamePlayer.id (f q) = GamePlayer.id q) ->
  (forall q, f (f q) = q) ->
  update_player k f (update_player k f ps) = ps.
Proof.
  intros Hid Hinv. induction ps as [|q rest IH]; simpl; [reflexivity|].
  destruct (GamePlayer.id q =? k)%string eqn:E; simpl.
  - now rewrite Hid, E, Hinv.
  - now rewrite E, IH.
Qed.

Lemma flip_ready_twice q :
  GamePlayer.with_isReady
    (negb (GamePlayer.isReady (GamePlayer.with_isReady (negb (GamePlayer.isReady q)) q)))
    (GamePlayer.with_isReady (negb (GamePlayer.isReady q)) q) = q.
Proof. destruct q as [i n p h r]. unfold GamePlayer.with_isReady. simpl. now rewrite negb_involutive. Qed.

Lemma update_player_split k f ps p :
  find_player k ps = Some p ->
  exists before after,
    ps = (before ++ p :: after)%list /\
    update_player k f ps = (before ++ f p :: after)%list.
Proof.
  unfold find_player. induction ps as [|q rest IH]; simpl; [discriminate|].
  destruct (GamePlayer.id q =? k)%string.
  - intro H. injection H as <-. exists [], rest. split; reflexivity.
  - intro H. destruct (IH H) as (b & a & -> & ->).
    exists (q :: b), a. split; reflexivity.
Qed.

(** X16: toggle-ready changes one thing: the ready flag of the player the
    lookup finds. The room it is stored in differs from the room before in its
    players only, and there in that one player only, whose id, nickname,
    picture and host flag stay and whose ready flag is negated; the other
    rooms and the transport are untouched, and the room's group gets the
    updated room. A second toggle-ready from the same socket gives back the
    state from before the first. *)
Theorem toggle_ready_twice st sid room player :
  reachable st ->
  findPlayerRoom sid (rooms st) = Some (room, player) ->
  exists st1 room1 before after flipped out2,
    handle st sid toggle_ready =
      Some (st1, [(io_to (GameRoom.id room), room_updated room1)]) /\
    sockets st1 = sockets st /\
    rooms_get (GameRoom.id room) (rooms st1) = Some room1 /\
    (forall k, k <> GameRoom.id room -> rooms_get k (rooms st1) = rooms_get k (rooms st)) /\
    same_but_players room room1 /\
    GameRoom.players room = (before ++ player :: after)%list /\
    GameRoom.players room1 = (before ++ flipped :: after)%list /\
    GamePlayer.id flipped = GamePlayer.id player /\
    GamePlayer.nickname flipped = GamePlayer.nickname player /\
    GamePlayer.profilePic flipped = GamePlayer.profilePic player /\
    GamePlayer.isHost flipped = GamePlayer.isHost player /\
    GamePlayer.isReady flipped = negb (GamePlayer.isReady player) /\
    findPlayerRoom sid (rooms st1) = Some (room1, flipped) /\
    handle st1 sid toggle_ready = Some (st, out2).
Proof.
  intros Hr Hf. pose proof (reachable_store_ok st Hr) as Hok.
  destruct (findPlayerRoom_Some _ _ _ _ Hf) as [Hin Hp].
  set (flip := fun p => GamePlayer.with_isReady (negb (GamePlayer.isReady p)) p).
  set (room1 := GameRoom.with_players (update_player sid flip (GameRoom.players room)) room).
  assert (Hf1 : findPlayerRoom sid (rooms_set room1 (rooms st)) = Some (room1, flip player)).
  { apply (findPlayerRoom_set sid room player); auto.
    simpl. apply find_player_update; [reflexivity | exact Hp]. }
  destruct (update_player_split sid flip _ _ Hp) as (before & after & Hb & Ha).
  exists (mkState (rooms_set room1 (rooms st)) (sockets st)), room1, before, after,
    (flip player).
  eexists.
  split; [simpl; unfold on_toggle_ready; rewrite Hf; reflexivity|].
  split; [reflexivity|].
  split; [exact (rooms_get_set_same room1 (rooms st))|].
  split; [intros k Hk; now apply rooms_get_set_other|].
  split; [repeat split|].
  split; [exact Hb|].
  split; [exact Ha|].
  do 5 (split; [reflexivity|]).
  split; [exact Hf1|].
  simpl. unfold on_toggle_ready. cbn [rooms sockets]. fold flip.
  rewrite Hf1.
  match goal with
  | |- Some (?s, _) = _ => assert (Hst : s = st)
  end.
  { rewrite rooms_set_set by reflexivity.
    replace (GameRoom.with_players _ room1) with room.
    - rewrite (rooms_set_same room (rooms st) Hok Hin). now destruct st.
    - unfold room1. simpl. rewrite update_player_twice.
      + now destruct room.
      + reflexivity.
      + exact flip_ready_twice. }
  rewrite Hst. reflexivity.
Qed.

Lemma toggle_ready_twice_witness :
  exists st1 room1 out2,
    handle lobby_state "bob" toggle_ready =
      Some (st1, [(io_to "room-1", room_updated room1)]) /\
    rooms_get "room-1" (rooms st1) = Some room1 /\
    map (fun p => (GamePlayer.id p, GamePlayer.isReady p)) (GameRoom.players room1)
      = [("alice", false); ("bob", false)] /\
    GameRoom.locked room1 = false /\
    handle st1 "bob" toggle_ready = Some (lobby_state, out2).
Proof.
  edestruct (toggle_ready_twice lobby_state "bob")
    as (st1 & room1 & before & after & flipped & out2 & H1 & _ & Hg & _ & Hsame
        & _ & _ & _ & _ & _ & _ & _ & _ & H2).
  - exact lobby_state_reachable.
  - reflexivity.
  - exists st1, room1, out2. split; [exact H1|]. split; [exact Hg|].
    split; [|split; [|exact H2]].
    + vm_compute in H1. injection H1 as _ <-. reflexivity.
    + destruct Hsame as (_ & _ & _ & _ & _ & _ & Hl & _). rewrite <- Hl. reflexivity.
Defined.

(** ** Kicking a player *)

Lemma find_player_remove_other k k' ps p :
  k' <> k ->
  find_player k ps = Some p ->
  find_player k (remove_player k' ps) = Some p.
Proof.
  unfold find_player. intro Hk. induction ps as [|q rest IH]; simpl; [discriminate|].
  destruct (GamePlayer.id q =? k')%string eqn:E'.
  - apply String.eqb_eq in E'.
    destruct (GamePlayer.id q =? k)%string eqn:E; [|auto].
    apply String.eqb_eq in E. congruence.
  - simpl. destruct (GamePlayer.id q =? k)%string; [auto | exact IH].
Qed.

Lemma not_in_group_after_leave sid g ss :
  ~ In sid (recipients (socket_leave sid g ss) (io_to g)).
Proof.
  intro H. apply in_recipients_group in H. destruct H as (s & Hin & Hg & Hs).
  unfold socket_leave in Hin. apply in_map_iff in Hin. destruct Hin as (s0 & E & _).
  destruct (fst s0 =? sid)%string eqn:E0.
  - subst s. unfold in_group in Hg. simpl in Hg.
    apply existsb_exists in Hg. destruct Hg as (g' & Hin' & Hg').
    apply filter_In in Hin'. destruct Hin' as [_ Hn]. rewrite Hg' in Hn. discriminate Hn.
  - subst s. apply String.eqb_neq in E0. contradiction.
Qed.

Lemma not_connected_no_recipient sid ss :
  connected sid ss = false -> ~ In sid (map fst ss).
Proof.
  unfold connected. intros Hc Hin. apply in_map_iff in Hin. destruct Hin as (s & Hs & Hin).
  assert (existsb (fun s0 => fst s0 =? sid)%string ss = true).
  { apply existsb_exists. exists s. split; [exact Hin | now apply String.eqb_eq]. }
  congruence.
Qed.

(** X17: kick-player from the host of a room. With the host's own id the
    answer is "Cannot kick yourself"; with an id that no player of the room
    has, "Player not found"; both change nothing. Otherwise the first player
    with that id is removed from the room, the host stays, [player-kicked] goes
    to the target's own channel, the room's update and the listing follow, and
    the target's socket is no longer in the room's broadcast group. *)
Theorem kick_player_outcomes st sid playerId room host :
  findPlayerRoom sid (rooms st) = Some (room, host) ->
  GamePlayer.isHost host = true ->
  (playerId = sid ->
   handle st sid (kick_player playerId) =
     Some (st, [(socket_emit sid, error "Cannot kick yourself")])) /\
  (find_player playerId (GameRoom.players room) = None ->
   handle st sid (kick_player playerId) =
     Some (st, [(socket_emit sid, error "Player not found")])) /\
  (playerId <> sid ->
   find_player playerId (GameRoom.players room) <> None ->
   exists st' kept,
     kept = GameRoom.with_players (remove_player playerId (GameRoom.players room)) room /\
     handle st sid (kick_player playerId) =
       Some (st', [(io_to playerId, player_kicked);
                   (io_to (GameRoom.id room), room_updated kept);
                   emitActiveRoomsToAll (rooms_set kept (rooms st))]) /\
     rooms st' = rooms_set kept (rooms st) /\
     find_player sid (GameRoom.players kept) = Some host /\
     ~ In playerId (recipients (sockets st') (io_to (GameRoom.id room)))).
Proof.
  intros Hf Hh. destruct (findPlayerRoom_Some _ _ _ _ Hf) as [_ Hp].
  simpl. unfold on_kick_player, reply_error. rewrite Hf, Hh. simpl.
  fold (find_player playerId (GameRoom.players room)).
  repeat split.
  - intros ->. rewrite Hp, String.eqb_refl. reflexivity.
  - intros ->. reflexivity.
  - intros Hk Hsome.
    destruct (find_player playerId (GameRoom.players room)) as [target|]; [|congruence].
    apply String.eqb_neq in Hk. rewrite Hk. apply String.eqb_neq in Hk.
    do 2 eexists. split; [reflexivity|]. split; [reflexivity|].
    split; [reflexivity|]. split.
    + simpl. now apply find_player_remove_other.
    + simpl. destruct (connected playerId (sockets st)) eqn:Ec.
      * apply not_in_group_after_leave.
      * intro Hin. apply (not_connected_no_recipient playerId _ Ec).
        simpl in Hin. apply in_map_iff in Hin. destruct Hin as (s & Hs & Hin).
        apply filter_In in Hin. apply in_map_iff. exists s. tauto.
Qed.

Lemma kick_player_outcomes_witness :
  exists st' kept,
    handle three_players_state "alice" (kick_player "bob") =
      Some (st', [(io_to "bob", player_kicked);
                  (io_to "room-1", room_updated kept);
                  emitActiveRoomsToAll (rooms st')]) /\
    rooms st' = [kept] /\
    map GamePlayer.id (GameRoom.players kept) = ["alice"; "carol"] /\
    ~ In "bob" (recipients (sockets st') (io_to "room-1")).
Proof.
  edestruct (kick_player_outcomes three_players_state "alice" "bob")
    as (_ & _ & Hkick).
  - reflexivity.
  - reflexivity.
  - destruct Hkick as (st' & kept & Hkept & Hh & Hrooms & _ & Hgone).
    + discriminate.
    + vm_compute. discriminate.
    + exists st', kept. rewrite Hrooms.
      split; [exact Hh|]. split; [rewrite Hkept; reflexivity|].
      split; [rewrite Hkept; reflexivity | exact Hgone].
Defined.

(** ** Leaving and disconnecting *)

(** X18: leave-room and disconnect do the same to the rooms and emit the same
    events; they differ in the transport only, where leave-room takes the
    socket out of the room's group and disconnect drops the socket. *)
Theorem leave_room_as_disconnect st sid :
  exists left gone out,
    handle st sid leave_room = Some (left, out) /\
    handle st sid disconnect = Some (gone, out) /\
    rooms left = rooms gone /\
    sockets gone = socket_disconnect sid (sockets st) /\
    (forall room player,
        findPlayerRoom sid (rooms st) = Some (room, player) ->
        sockets left = socket_leave sid (GameRoom.id room) (sockets st)).
Proof.
  simpl. unfold on_leave_room, on_disconnect.
  destruct (findPlayerRoom sid (rooms st)) as [[room player]|] eqn:Hf.
  - unfold depart. cbn.
    destruct (remove_player sid (GameRoom.players room)) as [|q rest]; cbn.
    + do 3 eexists. repeat split; try reflexivity.
      intros r p H. injection H as <- <-. reflexivity.
    + do 3 eexists. repeat split; try reflexivity.
      intros r p H. injection H as <- <-. reflexivity.
  - do 3 eexists. repeat split; try reflexivity. discriminate.
Qed.

(** ** The listing of active rooms *)

Lemma host_count_le_length ps : (host_count ps <= length ps)%nat.
Proof. unfold host_count. apply filter_length_le. Qed.

(** X19: in every reachable state the listing that [getActiveRooms] builds
    has one entry for each room in the lobby, locked or not, and none for any
    other room; no code appears twice in it, and every entry counts at least
    one player. *)
Theorem active_rooms_listing st :
  reachable st ->
  NoDup (map ar_code (getActiveRooms (rooms st))) /\
  (forall a,
      In a (getActiveRooms (rooms st)) <->
      exists room,
        In room (rooms st) /\
        GameRoom.gameState room = lobby /\
        a = mkActiveRoom (GameRoom.code room) (length (GameRoom.players room))
                         (GameRoom.locked room)) /\
  (forall a, In a (getActiveRooms (rooms st)) -> (1 <= ar_playerCount a)%nat).
Proof.
  intro Hr. unfold getActiveRooms.
  assert (Hiff : forall a,
      In a (map (fun room =>
                   mkActiveRoom (GameRoom.code room) (length (GameRoom.players room))
                                (GameRoom.locked room))
                (filter (fun room => GameState_eqb (GameRoom.gameState room) lobby)
                        (rooms st))) <->
      exists room,
        In room (rooms st) /\
        GameRoom.gameState room = lobby /\
        a = mkActiveRoom (GameRoom.code room) (length (GameRoom.players room))
                         (GameRoom.locked room)).
  { intro a. rewrite in_map_iff. split.
    - intros (room & <- & Hin). apply filter_In in Hin. destruct Hin as [Hin Hg].
      exists room. split; [exact Hin|]. split; [now apply GameState_eqb_eq | reflexivity].
    - intros (room & Hin & Hg & ->). exists room. split; [reflexivity|].
      apply filter_In. split; [exact Hin | now apply GameState_eqb_eq]. }
  split; [|split].
  - rewrite map_map. simpl.
    apply (NoDup_map_filter GameRoom.code). exact (reachable_codes_ok st Hr).
  - exact Hiff.
  - intros a Ha. apply Hiff in Ha. destruct Ha as (room & Hin & _ & ->). simpl.
    pose proof (reachable_one_host st room Hr Hin) as H1.
    pose proof (host_count_le_length (GameRoom.players room)). lia.
Qed.

Lemma active_rooms_listing_witness :
  getActiveRooms (rooms two_rooms_state) =
    [mkActiveRoom "ABCD" 1 false; mkActiveRoom "WXYZ" 2 false] /\
  NoDup (map ar_code (getActiveRooms (rooms two_rooms_state))).
Proof.
  split; [reflexivity|].
  apply (active_rooms_listing two_rooms_state). exact two_rooms_state_reachable.
Defined.

(** ** Resetting the game *)

Lemma find_player_map k f ps p :
  (forall q, GamePlayer.id (f q) = GamePlayer.id q) ->
  find_player k ps = Some p ->
  find_player k (map f ps) = Some (f p).
Proof.
  unfold find_player. intros Hf. induction ps as [|q rest IH]; simpl; [discriminate|].
  rewrite Hf. destruct (GamePlayer.id q =? k)%string.
  - intro H. now injection H as <-.
  - exact IH.
Qed.

(** X20: reset-game from the host, in any phase, puts the room back in the
    lobby at round 0 with no sentence and no drawing, the presentation off and
    every player not ready, keeping the players, their host flags, the code,
    the lock and [maxRounds]; so a start-game that follows at once, in a room
    that has another player, is refused with "Not all players are ready". *)
Theorem reset_then_start st sid room host :
  reachable st ->
  findPlayerRoom sid (rooms st) = Some (room, host) ->
  GamePlayer.isHost host = true ->
  (exists p, In p (GameRoom.players room) /\ GamePlayer.id p <> sid) ->
  exists st1 out1,
    handle st sid reset_game = Some (st1, out1) /\
    rooms_get (GameRoom.id room) (rooms st1) = Some (reset_room room) /\
    handle st1 sid start_game =
      Some (st1, [(socket_emit sid, error "Not all players are ready")]).
Proof.
  intros Hr Hf Hh (p & Hin & Hid). pose proof (reachable_store_ok st Hr) as Hok.
  destruct (findPlayerRoom_Some _ _ _ _ Hf) as [_ Hp].
  assert (Hp1 : find_player sid (GameRoom.players (reset_room room))
                = Some (GamePlayer.with_isReady false host)).
  { simpl. apply find_player_map; [reflexivity | exact Hp]. }
  pose proof (findPlayerRoom_set sid room host (reset_room room) _ (rooms st)
                Hok Hf eq_refl Hp1) as Hf1.
  do 2 eexists. split; [|split].
  - simpl. unfold on_reset_game. rewrite Hf, Hh. simpl. reflexivity.
  - simpl. exact (rooms_get_set_same (reset_room room) (rooms st)).
  - simpl. unfold on_start_game, reply_error. cbn [rooms sockets].
    change (GameRoom.with_players _ _) with (reset_room room).
    rewrite Hf1. simpl GamePlayer.isHost. rewrite Hh. simpl negb.
    assert (Hnr : forallb
                    (fun q => GamePlayer.isReady q
                              || (GamePlayer.id q
                                  =? GamePlayer.id (GamePlayer.with_isReady false host))%string)
                    (GameRoom.players (reset_room room)) = false).
    { apply (someone_not_ready sid _ _ Hp1).
      exists (GamePlayer.with_isReady false p). split; [|split; [exact Hid | reflexivity]].
      simpl. now apply in_map. }
    simpl in Hnr. rewrite Hnr. reflexivity.
Qed.

Lemma reset_then_start_witness :
  exists st1 out1 room1,
    handle results_state "alice" reset_game = Some (st1, out1) /\
    rooms_get "room-1" (rooms st1) = Some room1 /\
    GameRoom.gameState room1 = lobby /\
    map GamePlayer.isReady (GameRoom.players room1) = [false; false] /\
    handle st1 "alice" start_game =
      Some (st1, [(socket_emit "alice", error "Not all players are ready")]).
Proof.
  edestruct (reset_then_start results_state "alice") as (st1 & out1 & H1 & Hg & H2).
  - exact results_state_reachable.
  - reflexivity.
  - reflexivity.
  - eexists. split; [right; left; reflexivity | discriminate].
  - exists st1, out1. eexists. split; [exact H1|]. split; [exact Hg|].
    split; [reflexivity|]. split; [reflexivity | exact H2].
Defined.

(** ** Locking the room *)

(** X23: after the host of an unlocked room toggles the lock, the room's
    group is told that the code is locked, and a join-room with that code is
    refused with "Room is locked", whoever sends it. *)
Theorem lock_blocks_join st sid room host :
  reachable st ->
  findPlayerRoom sid (rooms st) = Some (room, host) ->
  GamePlayer.isHost host = true ->
  GameRoom.locked room = false ->
  exists st1 out1,
    handle st sid toggle_room_lock = Some (st1, out1) /\
    In (io_to (GameRoom.id room), room_lock_changed (GameRoom.code room) true) out1 /\
    forall joiner nickname profilePic,
      handle st1 joiner (join_room (GameRoom.code room) nickname profilePic) =
        Some (st1, [(socket_emit joiner, error "Room is locked")]).
Proof.
  intros Hr Hf Hh Hl. pose proof (reachable_store_ok st Hr) as Hok.
  destruct (findPlayerRoom_Some _ _ _ _ Hf) as [Hin _].
  pose proof (find_by_unique_key GameRoom.code room (rooms st)
                (reachable_codes_ok st Hr) Hin) as Hc.
  set (room1 := GameRoom.with_locked (negb (GameRoom.locked room)) room).
  pose proof (findRoomByCode_set (GameRoom.code room) room room1 (rooms st)
                Hok Hc eq_refl eq_refl) as Hc1.
  do 2 eexists. split; [|split].
  - simpl. unfold on_toggle_room_lock. rewrite Hf, Hh. simpl. reflexivity.
  - simpl. rewrite Hl. now left.
  - intros joiner nickname profilePic. simpl. unfold on_join_room, reply_error.
    cbn [rooms sockets]. fold room1. rewrite Hc1. simpl. rewrite Hl. reflexivity.
Qed.

Lemma lock_blocks_join_witness :
  exists st1 out1,
    handle lobby_state "alice" toggle_room_lock = Some (st1, out1) /\
    handle st1 "carol" (join_room "ABCD" "Carol" "c.png") =
      Some (st1, [(socket_emit "carol", error "Room is locked")]).
Proof.
  edestruct (lock_blocks_join lobby_state "alice") as (st1 & out1 & H1 & _ & Hj).
  - exact lobby_state_reachable.
  - reflexivity.
  - reflexivity.
  - reflexivity.
  - exists st1, out1. split; [exact H1|]. exact (Hj "carol" "Carol" "c.png").
Defined.

(** ** Lowering [maxRounds] during a game *)

Lemma submit_drawing_ends st sid imageData room player :
  findPlayerRoom sid (rooms st) = Some (room, player) ->
  GameRoom.gameState room = drawing ->
  drawing_count (add_drawing sid imageData room) = length (GameRoom.players room) ->
  GameRoom.maxRounds room <= GameRoom.currentRound room ->
  on_submit_drawing sid imageData st =
    (mkState (rooms_set (GameRoom.with_gameState results (add_drawing sid imageData room))
                        (rooms st))
             (sockets st),
     [(io_to (GameRoom.id room), phase_changed results);
      (io_to (GameRoom.id room),
       room_updated (GameRoom.with_gameState results (add_drawing sid imageData room)))]).
Proof.
  intros Hf Hg Hc Hm. unfold on_submit_drawing. rewrite Hf, Hg. simpl.
  fold (add_drawing sid imageData room).
  change (length (filter _ _)) with (drawing_count (add_drawing sid imageData room)).
  rewrite (proj2 (Nat.eqb_eq _ _) Hc).
  assert (Hge : (GameRoom.currentRound room >=? GameRoom.maxRounds room) = true).
  { rewrite Z.geb_leb. now apply Z.leb_le. }
  now rewrite Hge.
Qed.

(** X21: update-room-settings takes any [maxRounds] other than 0, at any
    time, with no check against the round being played. Once the host of a
    room in the drawing phase has set it to a value that does not exceed the
    current round, the drawing that completes the round ends the game: the
    room goes to the results phase at that round. *)
Theorem lowered_max_rounds_ends_game st hostId room host n sid imageData player :
  reachable st ->
  findPlayerRoom hostId (rooms st) = Some (room, host) ->
  GamePlayer.isHost host = true ->
  n <> 0 ->
  n <= GameRoom.currentRound room ->
  GameRoom.gameState room = drawing ->
  findPlayerRoom sid (rooms st) = Some (room, player) ->
  drawing_count (add_drawing sid imageData room) = length (GameRoom.players room) ->
  exists st1 out1 st2 out2 final,
    handle st hostId (update_room_settings (Some n)) = Some (st1, out1) /\
    rooms_get (GameRoom.id room) (rooms st1) = Some (GameRoom.with_maxRounds n room) /\
    handle st1 sid (submit_drawing imageData) = Some (st2, out2) /\
    rooms_get (GameRoom.id room) (rooms st2) = Some final /\
    GameRoom.gameState final = results /\
    GameRoom.maxRounds final = n /\
    GameRoom.currentRound final = GameRoom.currentRound room.
Proof.
  intros Hr Hfh Hh Hn Hle Hg Hf Hc. pose proof (reachable_store_ok st Hr) as Hok.
  destruct (findPlayerRoom_Some _ _ _ _ Hf) as [_ Hp].
  set (room1 := GameRoom.with_maxRounds n room).
  pose proof (findPlayerRoom_set sid room player room1 player (rooms st)
                Hok Hf eq_refl Hp) as Hf1.
  apply Z.eqb_neq in Hn.
  exists (mkState (rooms_set room1 (rooms st)) (sockets st)).
  do 4 eexists. split; [|split; [|split; [|split]]].
  - simpl. unfold on_update_room_settings. rewrite Hfh, Hh, Hn. reflexivity.
  - exact (rooms_get_set_same room1 (rooms st)).
  - simpl. f_equal.
    apply (submit_drawing_ends (mkState (rooms_set room1 (rooms st)) (sockets st))
             sid imageData room1 player Hf1 Hg Hc Hle).
  - simpl. exact (rooms_get_set_same
                    (GameRoom.with_gameState results (add_drawing sid imageData room1)) _).
  - repeat split.
Qed.

Lemma lowered_max_rounds_ends_game_witness :
  exists st1 out1 st2 out2 final,
    handle one_drawing_state "alice" (update_room_settings (Some (-5))) = Some (st1, out1) /\
    handle st1 "bob" (submit_drawing "d2") = Some (st2, out2) /\
    rooms_get "room-1" (rooms st2) = Some final /\
    GameRoom.gameState final = results /\
    GameRoom.maxRounds final = -5 /\
    GameRoom.currentRound final = 1.
Proof.
  edestruct lowered_max_rounds_ends_game
    with (st := one_drawing_state) (hostId := "alice") (n := -5)
         (sid := "bob") (imageData := "d2")
    as (st1 & out1 & st2 & out2 & final & H1 & _ & H2 & Hg & Hres & Hmax & Hround).
  - apply (scenario_reachable one_drawing_trace). vm_compute. reflexivity.
  - reflexivity.
  - reflexivity.
  - discriminate.
  - vm_compute. discriminate.
  - reflexivity.
  - reflexivity.
  - reflexivity.
  - exists st1, out1, st2, out2, final. repeat split; assumption.
Defined.

(** ** The presentation *)

(** X22: in the results phase the host can run the presentation:
    start-presentation turns it on at index 0, show-result then sets the index
    to whatever integer it is given, with no check against the number of
    results, and end-presentation turns it off at index 0 again, leaving the
    room as it was before apart from the presentation. *)
Theorem presentation_cycle st sid room host index :
  reachable st ->
  findPlayerRoom sid (rooms st) = Some (room, host) ->
  GamePlayer.isHost host = true ->
  GameRoom.gameState room = results ->
  exists st1 st2 st3,
    handle st sid start_presentation =
      Some (st1, [(io_to (GameRoom.id room),
                   presentation_started (PresentationMode.mk true 0))]) /\
    handle st1 sid (show_result index) =
      Some (st2, [(io_to (GameRoom.id room),
                   result_changed (PresentationMode.mk true index))]) /\
    rooms_get (GameRoom.id room) (rooms st2) =
      Some (GameRoom.with_presentationMode (PresentationMode.mk true index) room) /\
    handle st2 sid end_presentation =
      Some (st3, [(io_to (GameRoom.id room), presentation_ended)]) /\
    rooms_get (GameRoom.id room) (rooms st3) =
      Some (GameRoom.with_presentationMode default_presentation room).
Proof.
  intros Hr Hf Hh Hg. pose proof (reachable_store_ok st Hr) as Hok.
  destruct (findPlayerRoom_Some _ _ _ _ Hf) as [_ Hp].
  set (r1 := GameRoom.with_presentationMode (PresentationMode.mk true 0) room).
  set (r2 := GameRoom.with_presentationMode (PresentationMode.mk true index) room).
  set (r3 := GameRoom.with_presentationMode default_presentation room).
  pose proof (findPlayerRoom_set sid room host r1 host (rooms st) Hok Hf eq_refl Hp) as Hf1.
  pose proof (findPlayerRoom_set sid r1 host r2 host (rooms_set r1 (rooms st))
                (store_ok_set r1 _ Hok) Hf1 eq_refl Hp) as Hf2.
  exists (mkState (rooms_set r1 (rooms st)) (sockets st)).
  exists (mkState (rooms_set r2 (rooms_set r1 (rooms st))) (sockets st)).
  exists (mkState (rooms_set r3 (rooms_set r2 (rooms_set r1 (rooms st)))) (sockets st)).
  split; [|split; [|split; [|split]]].
  - simpl. unfold on_start_presentation. rewrite Hf, Hh, Hg. reflexivity.
  - simpl. unfold on_show_result. cbn [rooms sockets]. rewrite Hf1, Hh. reflexivity.
  - exact (rooms_get_set_same r2 _).
  - simpl. unfold on_end_presentation. cbn [rooms sockets]. rewrite Hf2, Hh. reflexivity.
  - exact (rooms_get_set_same r3 _).
Qed.

Lemma presentation_cycle_witness :
  exists st1 st2 st3,
    handle results_state "alice" start_presentation =
      Some (st1, [(io_to "room-1", presentation_started (PresentationMode.mk true 0))]) /\
    handle st1 "alice" (show_result 99) =
      Some (st2, [(io_to "room-1", result_changed (PresentationMode.mk true 99))]) /\
    handle st2 "alice" end_presentation =
      Some (st3, [(io_to "room-1", presentation_ended)]) /\
    rooms st3 = rooms results_state.
Proof.
  edestruct presentation_cycle
    with (st := results_state) (sid := "alice") (index := 99)
    as (st1 & st2 & st3 & H1 & H2 & _ & H3 & Hg).
  - exact results_state_reachable.
  - reflexivity.
  - reflexivity.
  - reflexivity.
  - exists st1, st2, st3. split; [exact H1|]. split; [exact H2|]. split; [exact H3|].
    destruct st3 as [rs3 ss3]. simpl in *.
    vm_compute in H1. injection H1 as <-.
    vm_compute in H2. injection H2 as <-.
    vm_compute in H3. injection H3 as <- _.
    reflexivity.
Defined.

(** * Departure of the host under exclusive membership *)

(** ** Every handler, with the transport *)



(** ** Player ids *)

Lemma member_find_player x room :
  member x room <-> find_player x (GameRoom.players room) <> None.
Proof.
  unfold member. rewrite find_player_None. split.
  - intros H Hn. now apply Hn.
  - intro H. destruct (in_dec string_dec x (map GamePlayer.id (GameRoom.players room)));
      [assumption | contradiction].
Qed.













(** ** Broadcast groups *)






(** ** Writing back, precisely *)





(** ** What exclusive membership keeps *)






(** ** The host leaves *)






